(** * SimpleChatbot: a shallow embedding of [non_llm_chat/SimpleChatbot.py]

    The development follows the Python module top to bottom:

    - [PyStr]: Python [str] values as sequences of Unicode code points, with
      the string methods the chatbot calls ([strip], [in], slicing, [join])
      and the character classes [\d] and [\s] of the [re] module;
    - [Re]: the regular expressions of the seed patterns, matched by
      derivatives;
    - [PyNum]: the numbers that the builtin [eval] produces over the
      characters that [handle_math] lets through, and their [str()];
    - [PyEval]: a reference semantics of [eval] on arithmetic expressions;
    - [Chatbot]: the class [SimpleChatbot] itself, in state-passing style,
      with [str.lower] and [eval] as parameters and the wall clock and
      the failures of the store as an environment of each call.

    The properties follow: [MathProperties] on [handle_math],
    [MatcherProperties] on [find_best_response] and [load_responses],
    [SessionProperties] on [get_response] and [get_conversation_stats]. *)

From Stdlib Require Import List Bool Ascii String NArith ZArith QArith Qround Lia Lqa.
From Stdlib Require Import DecimalString Sorted Permutation.
From Stdlib Require Import Floats.SpecFloat.
Import ListNotations.

Set Implicit Arguments.
Close Scope Q_scope.

(* ================================================================= *)
(** ** Python strings *)

Module PyStr.

(** A Python [str] is a sequence of Unicode code points. *)
Definition char := N.
Definition str := list char.

(** ASCII literals of the source, read as code points. *)
Definition u (s : string) : str := map N_of_ascii (list_ascii_of_string s).

Definition char_eqb (a b : char) : bool := N.eqb a b.

Fixpoint str_eqb (a b : str) : bool :=
  match a, b with
  | [], [] => true
  | x :: a', y :: b' => char_eqb x y && str_eqb a' b'
  | _, _ => false
  end.

(** Truthiness of a string: the empty string is falsy. *)
Definition truthy (s : str) : bool :=
  match s with [] => false | _ :: _ => true end.

(** First code points of the blocks of ten decimal digits (Unicode category
    Nd): [str.isdecimal], and [\d] in a [str] pattern. *)
Definition Nd_blocks : list N :=
  [0x30; 0x660; 0x6f0; 0x7c0; 0x966; 0x9e6; 0xa66; 0xae6; 0xb66; 0xbe6;
   0xc66; 0xce6; 0xd66; 0xde6; 0xe50; 0xed0; 0xf20; 0x1040; 0x1090; 0x17e0;
   0x1810; 0x1946; 0x19d0; 0x1a80; 0x1a90; 0x1b50; 0x1bb0; 0x1c40; 0x1c50;
   0xa620; 0xa8d0; 0xa900; 0xa9d0; 0xa9f0; 0xaa50; 0xabf0; 0xff10; 0x104a0;
   0x10d30; 0x11066; 0x110f0; 0x11136; 0x111d0; 0x112f0; 0x11450; 0x114d0;
   0x11650; 0x116c0; 0x11730; 0x118e0; 0x11950; 0x11c50; 0x11d50; 0x11da0;
   0x16a60; 0x16ac0; 0x16b50;
   0x1d7ce; 0x1d7d8; 0x1d7e2; 0x1d7ec; 0x1d7f6;
   0x1e140; 0x1e2f0; 0x1e950; 0x1fbf0]%N.

Definition in_block (c b : N) : bool := (b <=? c)%N && (c <? b + 10)%N.

Definition isdecimal (c : char) : bool := existsb (in_block c) Nd_blocks.

(** The ASCII digits [0-9]. *)
Definition is_ascii_digit (c : char) : bool := in_block c 0x30%N.

(** Code points for which [str.isspace] holds: [str.strip] removes them and
    [\s] matches them in a [str] pattern. *)
Definition whitespace : list N :=
  [0x9; 0xa; 0xb; 0xc; 0xd; 0x1c; 0x1d; 0x1e; 0x1f; 0x20; 0x85; 0xa0;
   0x1680; 0x2000; 0x2001; 0x2002; 0x2003; 0x2004; 0x2005; 0x2006; 0x2007;
   0x2008; 0x2009; 0x200a; 0x2028; 0x2029; 0x202f; 0x205f; 0x3000]%N.

Definition isspace (c : char) : bool := existsb (char_eqb c) whitespace.

Fixpoint dropwhile (p : char -> bool) (s : str) : str :=
  match s with
  | [] => []
  | c :: s' => if p c then dropwhile p s' else s
  end.

Fixpoint takewhile (p : char -> bool) (s : str) : str :=
  match s with
  | [] => []
  | c :: s' => if p c then c :: takewhile p s' else []
  end.

(** [s.strip()] *)
Definition lstrip (s : str) : str := dropwhile isspace s.
Definition rstrip (s : str) : str := rev (dropwhile isspace (rev s)).
Definition strip (s : str) : str := rstrip (lstrip s).

Fixpoint startswith (s p : str) : bool :=
  match p, s with
  | [], _ => true
  | x :: p', y :: s' => char_eqb x y && startswith s' p'
  | _ :: _, [] => false
  end.

(** [needle in s] *)
Fixpoint contains (needle s : str) : bool :=
  startswith s needle ||
  match s with
  | [] => false
  | _ :: s' => contains needle s'
  end.

(** [l[-n:]] for a positive [n]: the last [n] items, the whole list when it
    is shorter. *)
Definition last_n {A} (n : nat) (l : list A) : list A :=
  skipn (List.length l - n) l.

(** [sep.join(parts)] *)
Fixpoint join (sep : str) (parts : list str) : str :=
  match parts with
  | [] => []
  | [p] => p
  | p :: rest => p ++ sep ++ join sep rest
  end.

(** [str(n)] of an [int]. *)
Definition str_of_Z (z : Z) : str := u (NilZero.string_of_int (Z.to_int z)).
Definition str_of_nat (n : nat) : str := str_of_Z (Z.of_nat n).

(** [str.lower] restricted to ASCII letters; it agrees with [str.lower] on
    ASCII strings. *)
Definition ascii_lower_char (c : char) : char :=
  if (0x41 <=? c)%N && (c <=? 0x5a)%N then (c + 32)%N else c.
Definition ascii_lower (s : str) : str := map ascii_lower_char s.

End PyStr.

(* ================================================================= *)
(** ** Regular expressions of the seed patterns *)

Module Re.
Import PyStr.
Local Open Scope N_scope.

(** The fragment of [re] syntax that the seed patterns use: literals,
    character classes, concatenation, [|] and [*]. *)
Inductive regex : Type :=
| Nothing
| Eps
| Class (p : char -> bool)
| Cat (r1 r2 : regex)
| Alt (r1 r2 : regex)
| Star (r : regex).

Fixpoint nullable (r : regex) : bool :=
  match r with
  | Nothing => false
  | Eps => true
  | Class _ => false
  | Cat r1 r2 => nullable r1 && nullable r2
  | Alt r1 r2 => nullable r1 || nullable r2
  | Star _ => true
  end.

Definition cat (r1 r2 : regex) : regex :=
  match r1, r2 with
  | Nothing, _ => Nothing
  | _, Nothing => Nothing
  | Eps, _ => r2
  | _, _ => Cat r1 r2
  end.

Definition alt (r1 r2 : regex) : regex :=
  match r1, r2 with
  | Nothing, _ => r2
  | _, Nothing => r1
  | _, _ => Alt r1 r2
  end.

(** Brzozowski derivative: the words [w] such that [c :: w] is in [r]. *)
Fixpoint deriv (c : char) (r : regex) : regex :=
  match r with
  | Nothing => Nothing
  | Eps => Nothing
  | Class p => if p c then Eps else Nothing
  | Cat r1 r2 =>
      if nullable r1
      then alt (cat (deriv c r1) r2) (deriv c r2)
      else cat (deriv c r1) r2
  | Alt r1 r2 => alt (deriv c r1) (deriv c r2)
  | Star r1 => cat (deriv c r1) (Star r1)
  end.

Definition fullmatch (r : regex) (s : str) : bool :=
  nullable (fold_left (fun r' c => deriv c r') s r).

Definition anything : regex := Star (Class (fun _ => true)).

(** [re.compile(p).search(s) is not None]: some substring of [s] is in the
    language of [p]. *)
Definition search (r : regex) (s : str) : bool :=
  fullmatch (Cat anything (Cat r anything)) s.

(** [.] without DOTALL: any code point but the line feed. *)
Definition dot : regex := Class (fun c => negb (char_eqb c 0xa%N)).

Definition plus (r : regex) : regex := Cat r (Star r).

(** A literal letter under [re.IGNORECASE]: both cases of the letter, and
    the few other code points that the [re] module folds onto an ASCII
    letter (dotted and dotless i, long s, the Kelvin sign). *)
Definition icase (c : char) : char -> bool :=
  fun x =>
    char_eqb (ascii_lower_char x) (ascii_lower_char c)
    || (char_eqb (ascii_lower_char c) 0x69 && (char_eqb x 0x130 || char_eqb x 0x131))
    || (char_eqb (ascii_lower_char c) 0x73 && char_eqb x 0x17f)
    || (char_eqb (ascii_lower_char c) 0x6b && char_eqb x 0x212a).

(** A literal word of a pattern compiled with [re.IGNORECASE]. *)
Definition lit (w : string) : regex :=
  fold_right (fun c r => Cat (Class (icase c)) r) Eps (u w).

(** [w1|w2|...] *)
Definition alts (ws : list string) : regex :=
  fold_right (fun w r => Alt (lit w) r) Nothing ws.

(** The class [[\+\-\*\/]]. *)
Definition is_operator (c : char) : bool :=
  char_eqb c 0x2b || char_eqb c 0x2d || char_eqb c 0x2a || char_eqb c 0x2f.

(** [.*\d+\s*[\+\-\*\/]\s*\d+.*] *)
Definition math_regex : regex :=
  Cat (Star dot)
   (Cat (plus (Class isdecimal))
    (Cat (Star (Class isspace))
     (Cat (Class is_operator)
      (Cat (Star (Class isspace))
       (Cat (plus (Class isdecimal)) (Star dot)))))).

(** The states of the search for [math_regex] before any decimal digit
    has been read. *)
Definition math_tail : regex := Cat math_regex anything.

Inductive waiting : regex -> Prop :=
| waiting_start : waiting (Cat anything math_tail)
| waiting_more (r : regex) : waiting r -> waiting (Alt r math_tail).

End Re.

(* ================================================================= *)
(** ** Numbers of the builtin [eval] *)

Module PyNum.
Import PyStr.
Local Open Scope string_scope.
Local Open Scope list_scope.
Local Open Scope Z_scope.

(** Python's [float] is IEEE 754 binary64. *)
Definition prec : Z := 53.
Definition emax : Z := 1024.
Definition float := spec_float.

(** What [eval] can return on the characters [handle_math] lets through:
    an [int], a [float], or another object ([()], [Ellipsis], a complex
    number) of which only its [str()] matters here. *)
Inductive value : Type :=
| VInt (z : Z)
| VFloat (f : float)
| VOther (text : str).

(** Classes of the exceptions that [eval] raises. *)
Inductive exn_class : Type :=
| ZeroDivisionError
| SyntaxError
| TypeError
| OverflowError
| ValueError
| MemoryError
| RecursionError.

(** Outcome of [eval(expr)]. *)
Inductive eval_result : Type :=
| Evaluated (v : value)
| Raised (c : exn_class).

(** *** Conversions between rationals and binary64 *)

(** The binary64 nearest to [(-1)^s * p / q] (ties to even). *)
Definition float_of_ratio (s : bool) (p q : positive) : float :=
  let '(m, e, l) := SFdiv_core_binary prec emax (Zpos p) 0 (Zpos q) 0 in
  binary_round_aux prec emax s m e l.

Definition is_finite (f : float) : bool :=
  match f with
  | S754_zero _ | S754_finite _ _ _ => true
  | _ => false
  end.

Definition is_zero (f : float) : bool :=
  match f with S754_zero _ => true | _ => false end.

(** [float(z)] of an [int]: OverflowError when [z] is out of range. *)
Definition float_of_int (z : Z) : option float :=
  let f := binary_normalize prec emax z 0 false in
  if is_finite f then Some f else None.

(** *** [repr] of a float: the shortest decimal string that reads back as
    the same binary64. *)

Definition ndigits10 (z : Z) : nat := List.length (str_of_Z z).

(** Least [k <= fuel] with [den <= num * 10^k]. *)
Fixpoint scale_up (fuel : nat) (num den : Z) (k : Z) : Z :=
  match fuel with
  | O => k
  | S fuel' => if den <=? num then k else scale_up fuel' (num * 10) den (k + 1)
  end.

(** Position of the decimal point: [10^(decpt-1) <= num/den < 10^decpt]. *)
Definition decimal_point (num den : Z) : Z :=
  if den <=? num then Z.of_nat (ndigits10 (num / den))
  else 1 - scale_up 400 (num * 10) den 1.

(** [num/den * 10^k] as a fraction. *)
Definition scale10 (num den k : Z) : Z * Z :=
  if 0 <=? k then (num * 10 ^ k, den) else (num, den * 10 ^ (- k)).

Definition reads_back (m : positive) (e : Z) (c k : Z) : bool :=
  let '(p, q) := scale10 c 1 k in
  match p, q with
  | Zpos p', Zpos q' =>
      match float_of_ratio false p' q' with
      | S754_finite _ m' e' => Pos.eqb m m' && Z.eqb e e'
      | _ => false
      end
  | _, _ => false
  end.

(** Shortest digits: for [n = 1, 2, ...] significant digits, the two
    [n]-digit decimals around the value are tried, the nearer first. *)
Fixpoint shortest (fuel : nat) (m : positive) (e : Z) (num den decpt : Z)
    (n : Z) : Z * Z :=
  let '(vn, vd) := scale10 num den (n - decpt) in
  let lo := vn / vd in
  let r := vn mod vd in
  let lo_ok := reads_back m e lo (decpt - n) in
  let hi_ok := reads_back m e (lo + 1) (decpt - n) in
  let lo_first :=
    match 2 * r ?= vd with
    | Lt => true
    | Eq => Z.even lo
    | Gt => false
    end in
  match fuel with
  | O => (lo, decpt - n)
  | S fuel' =>
      if lo_first && lo_ok then (lo, decpt - n)
      else if hi_ok then (lo + 1, decpt - n)
      else if lo_ok then (lo, decpt - n)
      else shortest fuel' m e num den decpt (n + 1)
  end.

Definition zeros (n : Z) : str := repeat 0x30%N (Z.to_nat n).

Fixpoint strip_zeros_rev (ds : str) : str :=
  match ds with
  | c :: ds' => if char_eqb c 0x30%N then strip_zeros_rev ds' else ds
  | [] => []
  end.

(** The digits without trailing zeros, and the number of zeros removed. *)
Definition strip_trailing_zeros (ds : str) : str := rev (strip_zeros_rev (rev ds)).

Definition two_digits (z : Z) : str :=
  if z <? 10 then 0x30%N :: str_of_Z z else str_of_Z z.

(** Layout of [repr]: fixed notation when [-4 < decpt <= 16], exponent
    notation otherwise. *)
Definition format_digits (ds : str) (decpt : Z) : str :=
  let n := Z.of_nat (List.length ds) in
  if (decpt <=? -4) || (16 <? decpt) then
    let mant :=
      match ds with
      | [] => []
      | d :: [] => [d]
      | d :: rest => d :: 0x2e%N :: rest
      end in
    let ex := decpt - 1 in
    mant ++ u "e" ++ (if ex <? 0 then u "-" else u "+") ++ two_digits (Z.abs ex)
  else if decpt <=? 0 then
    u "0." ++ zeros (- decpt) ++ ds
  else if n <=? decpt then
    ds ++ zeros (decpt - n) ++ u ".0"
  else
    firstn (Z.to_nat decpt) ds ++ u "." ++ skipn (Z.to_nat decpt) ds.

Definition repr_float (f : float) : str :=
  match f with
  | S754_zero s => if s then u "-0.0" else u "0.0"
  | S754_infinity s => if s then u "-inf" else u "inf"
  | S754_nan => u "nan"
  | S754_finite s m e =>
      let '(num, den) := if 0 <=? e then (Zpos m * 2 ^ e, 1) else (Zpos m, 2 ^ (- e)) in
      let decpt := decimal_point num den in
      let '(c, k) := shortest 17 m e num den decpt 1 in
      let all := str_of_Z c in
      let ds := strip_trailing_zeros all in
      (if s then u "-" else []) ++ format_digits ds (k + Z.of_nat (List.length all))
  end.

(** [str(v)] of a value that can be converted. *)
Definition py_str (v : value) : str :=
  match v with
  | VInt z => str_of_Z z
  | VFloat f => repr_float f
  | VOther text => text
  end.

(** [sys.get_int_max_str_digits()]: CPython converts no [int] of more
    decimal digits than this to text, nor reads one from text; the
    program leaves the default in place. *)
Definition int_max_str_digits : nat := 4300.

(** The conversion [str(v)] raises ValueError for an [int] whose
    decimal writing, the sign apart, is longer than the limit. *)
Definition convertible (v : value) : bool :=
  match v with
  | VInt z => Nat.leb (ndigits10 (Z.abs z)) int_max_str_digits
  | _ => true
  end.

(** [f"{v}"], as the f-string of [handle_math] renders the result;
    [None] when the conversion raises. *)
Definition format_value (v : value) : option str :=
  if convertible v then Some (py_str v) else None.

End PyNum.

(* ================================================================= *)
(** ** A reference semantics of [eval] on arithmetic *)

(** [py_eval] gives the outcome of the builtin [eval] on the expressions
    made of decimal literals, [+ - * / // **], unary signs and
    parentheses.  It answers [None] on what it does not describe (calls,
    the empty tuple, the ellipsis, powers and floor divisions that go
    through the C library); CPython's resource limits are not modelled. *)

Module PyEval.
Import PyStr PyNum.
Local Open Scope Z_scope.

Inductive token : Type :=
| TNum (v : value)
| TPlus | TMinus | TStar | TSlash | TDoubleStar | TDoubleSlash
| TLParen | TRParen | TDot | TEllipsis.

Inductive lexed : Type :=
| Tokens (ts : list token)
| LexError          (* the tokenizer raises SyntaxError *)
| LexUnknown.       (* a character outside the arithmetic alphabet *)

Definition digit_value (c : char) : Z := Z.of_N c - 48.

Definition int_of_digits (ds : str) : Z :=
  fold_left (fun acc d => acc * 10 + digit_value d) ds 0.

Definition all_zeros (ds : str) : bool := forallb (char_eqb 0x30%N) ds.

(** A decimal integer literal may not start with a zero, unless it is
    made of zeros only. *)
Definition leading_zero (ds : str) : bool :=
  match ds with
  | c :: _ :: _ => char_eqb c 0x30%N && negb (all_zeros ds)
  | _ => false
  end.

(** An integer literal of more digits than [int_max_str_digits] is
    refused (a literal made of zeros only is read as 0). *)
Definition too_many_digits (ds : str) : bool :=
  Nat.ltb int_max_str_digits (List.length ds) && negb (all_zeros ds).

(** The float literal [ip.fp]: the binary64 nearest to its decimal
    value. *)
Definition float_literal (ip fp : str) : float :=
  match int_of_digits (ip ++ fp) with
  | Zpos p => float_of_ratio false p (Z.to_pos (10 ^ Z.of_nat (List.length fp)))
  | _ => S754_zero false
  end.

Definition cons_token (t : token) (r : lexed) : lexed :=
  match r with
  | Tokens ts => Tokens (t :: ts)
  | _ => r
  end.

Fixpoint lex (fuel : nat) (s : str) : lexed :=
  match fuel with
  | O => LexUnknown
  | S fuel' =>
      match s with
      | [] => Tokens []
      | c :: s' =>
          if is_ascii_digit c then
            let ip := takewhile is_ascii_digit s in
            match dropwhile is_ascii_digit s with
            | 0x2e%N :: rest =>
                let fp := takewhile is_ascii_digit rest in
                cons_token (TNum (VFloat (float_literal ip fp)))
                           (lex fuel' (dropwhile is_ascii_digit rest))
            | rest =>
                if leading_zero ip || too_many_digits ip then LexError
                else cons_token (TNum (VInt (int_of_digits ip))) (lex fuel' rest)
            end
          else if char_eqb c 0x2e%N then
            match s' with
            | 0x2e%N :: 0x2e%N :: rest => cons_token TEllipsis (lex fuel' rest)
            | d :: _ =>
                if is_ascii_digit d then
                  let fp := takewhile is_ascii_digit s' in
                  cons_token (TNum (VFloat (float_literal [] fp)))
                             (lex fuel' (dropwhile is_ascii_digit s'))
                else cons_token TDot (lex fuel' s')
            | [] => cons_token TDot (lex fuel' s')
            end
          else if char_eqb c 0x2a%N then
            match s' with
            | 0x2a%N :: rest => cons_token TDoubleStar (lex fuel' rest)
            | _ => cons_token TStar (lex fuel' s')
            end
          else if char_eqb c 0x2f%N then
            match s' with
            | 0x2f%N :: rest => cons_token TDoubleSlash (lex fuel' rest)
            | _ => cons_token TSlash (lex fuel' s')
            end
          else if char_eqb c 0x2b%N then cons_token TPlus (lex fuel' s')
          else if char_eqb c 0x2d%N then cons_token TMinus (lex fuel' s')
          else if char_eqb c 0x28%N then cons_token TLParen (lex fuel' s')
          else if char_eqb c 0x29%N then cons_token TRParen (lex fuel' s')
          else if isdecimal c then LexError   (* a digit outside ASCII *)
          else LexUnknown
      end
  end.

(** Syntax trees of the arithmetic fragment. *)
Inductive binop : Type := Add | Sub | Mul | Div | FloorDiv | Pow.

Inductive expr : Type :=
| ENum (v : value)
| ENeg (e : expr)
| EPos (e : expr)
| EBin (op : binop) (a b : expr).

Inductive parsed : Type :=
| Parsed (e : expr) (rest : list token)
| ParseError            (* the parser raises SyntaxError *)
| ParseUnknown.         (* out of fuel *)

(** Token sequences that leave the fragment: attribute dots, the
    ellipsis, the empty tuple [()] and call syntax [x(...)]. *)
Fixpoint outside_fragment (ts : list token) : bool :=
  match ts with
  | [] => false
  | TDot :: _ | TEllipsis :: _ => true
  | TLParen :: ((TRParen :: _) as ts') => true
  | TNum _ :: ((TLParen :: _) as ts') => true
  | TRParen :: ((TLParen :: _) as ts') => true
  | _ :: ts' => outside_fragment ts'
  end.

(** Recursive descent along Python's grammar:
    sum: term (('+'|'-') term)*;  term: factor (('*'|'/'|'//') factor)*;
    factor: ('+'|'-') factor | power;  power: atom ['**' factor];
    atom: NUMBER | '(' sum ')'.
    Every call spends one unit of fuel. *)
Fixpoint parse_sum (fuel : nat) (ts : list token) : parsed :=
  match fuel with
  | O => ParseUnknown
  | S n =>
      match parse_term n ts with
      | Parsed a rest => sum_rest n a rest
      | r => r
      end
  end

with sum_rest (fuel : nat) (acc : expr) (ts : list token) : parsed :=
  match fuel with
  | O => ParseUnknown
  | S n =>
      match ts with
      | TPlus :: ts' =>
          match parse_term n ts' with
          | Parsed b rest => sum_rest n (EBin Add acc b) rest
          | r => r
          end
      | TMinus :: ts' =>
          match parse_term n ts' with
          | Parsed b rest => sum_rest n (EBin Sub acc b) rest
          | r => r
          end
      | _ => Parsed acc ts
      end
  end

with parse_term (fuel : nat) (ts : list token) : parsed :=
  match fuel with
  | O => ParseUnknown
  | S n =>
      match parse_factor n ts with
      | Parsed a rest => term_rest n a rest
      | r => r
      end
  end

with term_rest (fuel : nat) (acc : expr) (ts : list token) : parsed :=
  match fuel with
  | O => ParseUnknown
  | S n =>
      match ts with
      | TStar :: ts' =>
          match parse_factor n ts' with
          | Parsed b rest => term_rest n (EBin Mul acc b) rest
          | r => r
          end
      | TSlash :: ts' =>
          match parse_factor n ts' with
          | Parsed b rest => term_rest n (EBin Div acc b) rest
          | r => r
          end
      | TDoubleSlash :: ts' =>
          match parse_factor n ts' with
          | Parsed b rest => term_rest n (EBin FloorDiv acc b) rest
          | r => r
          end
      | _ => Parsed acc ts
      end
  end

with parse_factor (fuel : nat) (ts : list token) : parsed :=
  match fuel with
  | O => ParseUnknown
  | S n =>
      match ts with
      | TMinus :: ts' =>
          match parse_factor n ts' with
          | Parsed e rest => Parsed (ENeg e) rest
          | r => r
          end
      | TPlus :: ts' =>
          match parse_factor n ts' with
          | Parsed e rest => Parsed (EPos e) rest
          | r => r
          end
      | _ => parse_power n ts
      end
  end

with parse_power (fuel : nat) (ts : list token) : parsed :=
  match fuel with
  | O => ParseUnknown
  | S n =>
      match parse_atom n ts with
      | Parsed a (TDoubleStar :: rest) =>
          match parse_factor n rest with
          | Parsed b rest' => Parsed (EBin Pow a b) rest'
          | r => r
          end
      | r => r
      end
  end

with parse_atom (fuel : nat) (ts : list token) : parsed :=
  match fuel with
  | O => ParseUnknown
  | S n =>
      match ts with
      | TNum v :: rest => Parsed (ENum v) rest
      | TLParen :: ts' =>
          match parse_sum n ts' with
          | Parsed e (TRParen :: rest) => Parsed e rest
          | Parsed _ _ => ParseError
          | r => r
          end
      | _ => ParseError
      end
  end.

(** *** Arithmetic *)

Definition to_float (v : value) : option float :=
  match v with
  | VInt z => float_of_int z
  | VFloat f => Some f
  | VOther _ => None
  end.

(** [a op b] on two floats, for [+], [-] and [*]: IEEE arithmetic, no
    exception. *)
Definition float_arith (op : binop) (x y : float) : float :=
  match op with
  | Add => SFadd prec emax x y
  | Sub => SFsub prec emax x y
  | _ => SFmul prec emax x y
  end.

Definition int_arith (op : binop) (a b : Z) : Z :=
  match op with
  | Add => a + b
  | Sub => a - b
  | _ => a * b
  end.

(** True division of two ints: the correctly rounded quotient. *)
Definition int_true_divide (a b : Z) : eval_result :=
  match b, a with
  | Z0, _ => Raised ZeroDivisionError
  | _, Z0 => Evaluated (VFloat (S754_zero (b <? 0)))
  | _, _ =>
      let f := float_of_ratio (xorb (a <? 0) (b <? 0))
                              (Z.to_pos (Z.abs a)) (Z.to_pos (Z.abs b)) in
      if is_finite f then Evaluated (VFloat f) else Raised OverflowError
  end.

(** [a op b]; [None] where the reference semantics is silent. *)
Definition apply_binop (op : binop) (a b : value) : option eval_result :=
  match a, b with
  | VOther _, _ | _, VOther _ => None
  | VInt x, VInt y =>
      match op with
      | Add | Sub | Mul => Some (Evaluated (VInt (int_arith op x y)))
      | Div => Some (int_true_divide x y)
      | FloorDiv =>
          if y =? 0 then Some (Raised ZeroDivisionError)
          else Some (Evaluated (VInt (x / y)))
      | Pow =>
          if 0 <=? y then Some (Evaluated (VInt (x ^ y)))
          else match float_of_int x, float_of_int y with
               | Some fx, Some _ =>
                   if is_zero fx then Some (Raised ZeroDivisionError) else None
               | _, _ => Some (Raised OverflowError)
               end
      end
  | _, _ =>
      match to_float a, to_float b with
      | Some x, Some y =>
          match op with
          | Add | Sub | Mul => Some (Evaluated (VFloat (float_arith op x y)))
          | Div =>
              if is_zero y then Some (Raised ZeroDivisionError)
              else Some (Evaluated (VFloat (SFdiv prec emax x y)))
          | FloorDiv =>
              if is_zero y then Some (Raised ZeroDivisionError) else None
          | Pow => None
          end
      | _, _ => Some (Raised OverflowError)
      end
  end.

Definition negate (v : value) : option eval_result :=
  match v with
  | VInt z => Some (Evaluated (VInt (- z)))
  | VFloat f => Some (Evaluated (VFloat (SFopp f)))
  | VOther _ => None
  end.

(** Operands are evaluated left to right; the first exception wins. *)
Fixpoint eval_expr (e : expr) : option eval_result :=
  match e with
  | ENum v => Some (Evaluated v)
  | EPos e1 => eval_expr e1
  | ENeg e1 =>
      match eval_expr e1 with
      | Some (Evaluated v) => negate v
      | r => r
      end
  | EBin op a b =>
      match eval_expr a with
      | Some (Evaluated va) =>
          match eval_expr b with
          | Some (Evaluated vb) => apply_binop op va vb
          | r => r
          end
      | r => r
      end
  end.

(** Parsing and evaluation of a token sequence: a syntax error is raised
    before anything is evaluated. *)
Definition eval_tokens (ts : list token) : option eval_result :=
  if outside_fragment ts then None
  else match parse_sum (8 * List.length ts + 8) ts with
       | Parsed e [] => eval_expr e
       | Parsed _ (_ :: _) => Some (Raised SyntaxError)
       | ParseError => Some (Raised SyntaxError)
       | ParseUnknown => None
       end.

(** [eval(s)] on the arithmetic fragment. *)
Definition py_eval (s : str) : option eval_result :=
  match lex (S (List.length s)) s with
  | LexUnknown => None
  | LexError => Some (Raised SyntaxError)
  | Tokens ts => eval_tokens ts
  end.

End PyEval.

(* ================================================================= *)
(** ** The class [SimpleChatbot] *)

Module Chatbot.
Import PyStr PyNum.
Local Open Scope string_scope.
Local Open Scope list_scope.

(** The line feed of the source's ["\n"]. *)
Definition nl : str := [0xa%N].

(** *** The database *)

(** A row of table [patterns].  The pattern text is kept in parsed form;
    [weight] is an SQLite REAL, represented by the rational it denotes. *)
Record pattern_row : Type := {
  row_pattern : Re.regex;
  row_response : str;
  row_category : str;
  row_weight : Q
}.

(** A row of table [conversations] (the columns the code writes). *)
Record exchange : Type := {
  user_input : str;
  bot_response : str;
  confidence : Q
}.

Record database : Type := {
  conversations : list exchange;
  patterns_table : list pattern_row
}.

(** A database file that does not exist yet. *)
Definition new_database : database :=
  {| conversations := []; patterns_table := [] |}.

(** An entry of [self.patterns]: the compiled pattern is represented by
    its search predicate, [pattern s = true] when
    [pattern_info['pattern'].search(s)] finds a match. *)
Record pattern_info : Type := {
  pattern : str -> bool;
  response : str;
  category : str;
  weight : Q
}.

(** The attributes of an instance. *)
Record SimpleChatbot : Type := {
  patterns : list pattern_info;
  conversation_history : list (str * str)
}.

(** What a call finds outside the program: the wall clock, already
    formatted by [strftime], and the exception (its [str(e)]) that
    [sqlite3] raises when the store is touched, if it raises one. *)
Record environment : Type := {
  clock_time : str;      (* now.strftime('%H:%M:%S') *)
  clock_date : str;      (* now.strftime('%A, %B %d, %Y') *)
  storage_error : option str
}.

(** A computation that returns or raises an [Exception] whose [str(e)] is
    [msg]. *)
Inductive outcome (A : Type) : Type :=
| Returned (a : A)
| Failed (msg : str).
Arguments Returned {A} a.
Arguments Failed {A} msg.

Definition bind {A B} (m : outcome A) (k : A -> outcome B) : outcome B :=
  match m with
  | Returned a => k a
  | Failed msg => Failed msg
  end.

Notation "x <- m ;; k" := (bind m (fun x => k))
  (at level 61, m at next level, right associativity).

(** [is_database_empty] *)
Definition is_database_empty (db : database) : bool :=
  Nat.eqb (List.length (patterns_table db)) 0.

(** The literal list of [load_initial_patterns]. *)
Definition initial_patterns : list pattern_row :=
  [ {| row_pattern := Re.alts ["hello"; "hi"; "hey"; "good morning"; "good afternoon"; "good evening"];
       row_response := u "Hello! How can I help you today?";
       row_category := u "greeting"; row_weight := 1 |};
    {| row_pattern := Re.alts ["how are you"; "how do you do"];
       row_response := u "I'm doing well, thank you for asking! How are you?";
       row_category := u "greeting"; row_weight := 1 |};
    {| row_pattern := Re.alts ["what are you"; "who are you"; "what is your name"];
       row_response := u "I'm a simple non-LLM chatbot built with Python. I use pattern matching and rule-based responses!";
       row_category := u "identity"; row_weight := 1 |};
    {| row_pattern := Re.alts ["what can you do"; "what are your capabilities"];
       row_response := u "I can have conversations, answer basic questions, do simple math, tell time, and learn from our chats!";
       row_category := u "capabilities"; row_weight := 1 |};
    {| row_pattern := Re.math_regex;
       row_response := [];
       row_category := u "math"; row_weight := 2 |};
    {| row_pattern := Re.alts ["what time"; "current time"; "time now"];
       row_response := [];
       row_category := u "time"; row_weight := 2 |};
    {| row_pattern := Re.alts ["what date"; "current date"; "today"];
       row_response := [];
       row_category := u "date"; row_weight := 2 |};
    {| row_pattern := Re.alts ["thank you"; "thanks"];
       row_response := u "You're welcome! Is there anything else I can help you with?";
       row_category := u "gratitude"; row_weight := 1 |};
    {| row_pattern := Re.alts ["goodbye"; "bye"; "see you"; "farewell"];
       row_response := u "Goodbye! It was nice chatting with you. Come back anytime!";
       row_category := u "farewell"; row_weight := 1 |};
    {| row_pattern := Re.alts ["help"; "assistance"];
       row_response := u "I'm here to help! You can ask me questions, chat with me, or ask me to solve simple math problems.";
       row_category := u "help"; row_weight := 1 |};
    {| row_pattern := Re.alts ["tell me a joke"; "joke"; "funny"];
       row_response := u "Why don't scientists trust atoms? Because they make up everything! " ++ [0x1f604%N];
       row_category := u "humor"; row_weight := 1 |};
    {| row_pattern := Re.alts ["how old are you"];
       row_response := u "I was just created, so I'm practically a newborn in AI years!";
       row_category := u "age"; row_weight := 1 |};
    {| row_pattern := Re.Star Re.dot;
       row_response := u "I understand you're trying to tell me something, but I'm not quite sure how to respond. Could you try rephrasing?";
       row_category := u "fallback"; row_weight := 1 # 10 |} ]%Q.

(** [load_initial_patterns]: one INSERT per entry, in order. *)
Definition load_initial_patterns (db : database) : database :=
  {| conversations := conversations db;
     patterns_table := patterns_table db ++ initial_patterns |}.

(** [init_database]: the tables are created if missing, and seeded when
    table [patterns] is empty. *)
Definition init_database (db : database) : database :=
  if is_database_empty db then load_initial_patterns db else db.

(** [ORDER BY weight DESC]: rows of equal weight stay in insertion
    (rowid) order. *)
Definition Qgtb (a b : Q) : bool := negb (Qle_bool a b).

Fixpoint insert_by_weight (r : pattern_row) (sorted : list pattern_row)
  : list pattern_row :=
  match sorted with
  | [] => [r]
  | x :: rest =>
      if Qgtb (row_weight x) (row_weight r)
      then x :: insert_by_weight r rest
      else r :: sorted
  end.

Definition order_by_weight_desc (rows : list pattern_row) : list pattern_row :=
  fold_right insert_by_weight [] rows.

(** [re.compile(pattern, re.IGNORECASE)] and the dict built around it. *)
Definition compile_row (r : pattern_row) : pattern_info :=
  {| pattern := Re.search (row_pattern r);
     response := row_response r;
     category := row_category r;
     weight := row_weight r |}.

(** [load_responses] *)
Definition load_responses (db : database) : list pattern_info :=
  map compile_row (order_by_weight_desc (patterns_table db)).

(** [__init__] *)
Definition init (db : database) : SimpleChatbot * database :=
  let db' := init_database db in
  ({| patterns := load_responses db'; conversation_history := [] |}, db').

(** *** The methods *)

Section Methods.

(** Two services of the Python runtime are taken as given: [str.lower]
    and the builtin [eval]. *)
Variable lower : str -> str.
Variable eval : str -> eval_result.

(** The class [[\d\+\-\*\/\(\)\.]]. *)
Definition is_math_char (c : char) : bool :=
  isdecimal c || Re.is_operator c
  || char_eqb c 0x28%N || char_eqb c 0x29%N || char_eqb c 0x2e%N.

(** [re.sub(r'[^\d\+\-\*\/\(\)\.\s]', '', expression)] followed by
    [re.sub(r'\s+', '', expr)]. *)
Definition clean (expression : str) : str :=
  let expr := filter (fun c => is_math_char c || isspace c) expression in
  filter (fun c => negb (isspace c)) expr.

(** [re.match(r'^[\d\+\-\*\/\(\)\.]+$', expr)]: one character of the
    class at least, then the end of the string, which [$] also finds in
    front of a final line feed. *)
Definition match_whitelist (expr : str) : bool :=
  match expr with
  | [] => false
  | c :: _ =>
      is_math_char c &&
      match dropwhile is_math_char expr with
      | [] => true
      | rest => str_eqb rest nl
      end
  end.

(** [handle_math] *)
Definition handle_math (expression : str) : str :=
  let expr := clean expression in
  if negb (match_whitelist expr) then
    u "I can only handle basic math with +, -, *, / and parentheses."
  else
    match eval expr with
    | Evaluated result =>
        match format_value result with
        | Some text => u "The answer is: " ++ text
        | None => u "I couldn't solve that math problem. Please check your expression."
        end
    | Raised ZeroDivisionError => u "Oops! Division by zero is not allowed."
    | Raised _ => u "I couldn't solve that math problem. Please check your expression."
    end.

(** [handle_time_query] and [handle_date_query] *)
Definition handle_time_query (env : environment) : str :=
  u "The current time is " ++ clock_time env ++ u " on " ++ clock_date env ++ u ".".

Definition handle_date_query (env : environment) : str :=
  u "Today is " ++ clock_date env ++ u ".".

(** [re.search(r'[\d\+\-\*\/\(\)\.\s]+', user_input)]: the leftmost
    longest run of such characters, [None] when there is none. *)
Definition math_search (user_input : str) : option str :=
  let in_class c := is_math_char c || isspace c in
  match dropwhile (fun c => negb (in_class c)) user_input with
  | [] => None
  | rest => Some (takewhile in_class rest)
  end.

(** [best_match or "I'm not sure how to respond to that."] *)
Definition best_or_default (best_match : option str) : str :=
  match best_match with
  | Some r => if truthy r then r else u "I'm not sure how to respond to that."
  | None => u "I'm not sure how to respond to that."
  end.

(** The loop of [find_best_response], from a given position, with the
    two variables it updates. *)
Fixpoint scan (env : environment) (ps : list pattern_info) (user_input : str)
    (best_match : option str) (best_confidence : Q) : str * Q :=
  match ps with
  | [] => (best_or_default best_match, best_confidence)
  | pattern_info :: ps' =>
      if pattern pattern_info user_input then
        let confidence := weight pattern_info in
        if str_eqb (category pattern_info) (u "math") then
          match math_search user_input with
          | Some math_expr => (handle_math math_expr, confidence)
          | None => scan env ps' user_input best_match best_confidence
          end
        else if str_eqb (category pattern_info) (u "time") then
          (handle_time_query env, confidence)
        else if str_eqb (category pattern_info) (u "date") then
          (handle_date_query env, confidence)
        else if truthy (response pattern_info) then
          if Qgtb confidence best_confidence
          then scan env ps' user_input (Some (response pattern_info)) confidence
          else scan env ps' user_input best_match best_confidence
        else scan env ps' user_input best_match best_confidence
      else scan env ps' user_input best_match best_confidence
  end.

(** [find_best_response] *)
Definition find_best_response (self : SimpleChatbot) (env : environment)
    (user_input : str) : str * Q :=
  let user_input := lower (strip user_input) in
  scan env (patterns self) user_input None 0%Q.

(** [learn_from_conversation]: one INSERT, committed. *)
Definition learn_from_conversation (db : database) (env : environment)
    (user_input bot_response : str) (confidence : Q) : outcome database :=
  match storage_error env with
  | Some msg => Failed msg
  | None =>
      Returned {| conversations :=
                    conversations db ++
                    [ {| user_input := user_input;
                         bot_response := bot_response;
                         confidence := confidence |} ];
                  patterns_table := patterns_table db |}
  end.

(** [SELECT AVG(confidence)]: one pass keeping the sum and the count,
    NULL on an empty table. *)
Definition sql_avg (rows : list exchange) : option Q :=
  let '(total, count) :=
    fold_left (fun acc r => (fst acc + confidence r, S (snd acc))%Q) rows (0%Q, O) in
  match count with
  | O => None
  | S _ => Some (total / inject_Z (Z.of_nat count))%Q
  end.

(** [SELECT COUNT(DISTINCT user_input)]: each row's value is looked up
    among the values already seen. *)
Fixpoint distinct_values (seen : list str) (values : list str) : list str :=
  match values with
  | [] => seen
  | v :: rest =>
      if existsb (str_eqb v) seen
      then distinct_values seen rest
      else distinct_values (seen ++ [v]) rest
  end.

Definition sql_count_distinct (values : list str) : nat :=
  List.length (distinct_values [] values).

(** [round(x, 2)]: to the nearest hundredth, ties to the even one. *)
Definition round_half_even (x : Q) : Z :=
  let f := Qfloor x in
  match Qcompare (x - inject_Z f) (1 # 2) with
  | Lt => f
  | Gt => (f + 1)%Z
  | Eq => if Z.even f then f else (f + 1)%Z
  end.

Definition round2 (x : Q) : Q := Qmake (round_half_even (x * 100)) 100.

(** The dict that [get_conversation_stats] returns. *)
Record stats : Type := {
  total_conversations : nat;
  average_confidence : Q;
  unique_inputs : nat
}.

(** [get_conversation_stats] *)
Definition get_conversation_stats (db : database) (env : environment)
  : outcome stats :=
  match storage_error env with
  | Some msg => Failed msg
  | None =>
      let total_conversations := List.length (conversations db) in
      let avg_confidence :=
        match sql_avg (conversations db) with
        | Some a => if Qeq_bool a 0 then 0%Q else a
        | None => 0%Q
        end in
      let unique_inputs :=
        sql_count_distinct (map user_input (conversations db)) in
      Returned {| total_conversations := total_conversations;
                  average_confidence := round2 avg_confidence;
                  unique_inputs := unique_inputs |}
  end.

(** [str(x)] of the float [round(avg, 2)]. *)
Definition str_of_hundredths (x : Q) : str :=
  match Qnum x with
  | Z0 => u "0.0"
  | Zpos p => repr_float (float_of_ratio false p (Qden x))
  | Zneg p => repr_float (float_of_ratio true p (Qden x))
  end.

Definition bullet : str := [0x2022%N].

Definition render_stats (s : stats) : str :=
  u "Chat Statistics:" ++ nl ++
  bullet ++ u " Total conversations: " ++ str_of_nat (total_conversations s) ++ nl ++
  bullet ++ u " Average confidence: " ++ str_of_hundredths (average_confidence s) ++ nl ++
  bullet ++ u " Unique questions: " ++ str_of_nat (unique_inputs s).

Definition render_history (recent : list (str * str)) : str :=
  u "Here are our recent exchanges:" ++ nl ++ nl ++
  join nl (map (fun qa => u "You: " ++ fst qa ++ nl ++ u "Me: " ++ snd qa) recent).

Definition set_history (self : SimpleChatbot) (h : list (str * str)) : SimpleChatbot :=
  {| patterns := patterns self; conversation_history := h |}.

(** The body of the [try] block of [get_response]: the reply with the
    instance and the database as the call leaves them, or the exception
    that escapes the block. *)
Definition get_response_try (self : SimpleChatbot) (db : database)
    (env : environment) (message : str)
  : outcome (str * SimpleChatbot * database) :=
  if negb (truthy message) || negb (truthy (strip message)) then
    Returned (u "Please say something! I'm here to chat with you.", self, db)
  else if contains (u "conversation history") (lower message)
          || contains (u "chat history") (lower message) then
    if Nat.eqb (List.length (conversation_history self)) 0 then
      Returned (u "We haven't chatted yet! This is our first conversation.", self, db)
    else
      let recent_history := last_n 3 (conversation_history self) in
      Returned (render_history recent_history, self, db)
  else if contains (u "clear history") (lower message) then
    Returned (u "Conversation history cleared! Starting fresh.", set_history self [], db)
  else if contains (u "stats") (lower message)
          || contains (u "statistics") (lower message) then
    s <- get_conversation_stats db env ;;
    Returned (render_stats s, self, db)
  else
    let '(response, confidence) := find_best_response self env message in
    db' <- learn_from_conversation db env message response confidence ;;
    let history := conversation_history self ++ [(message, response)] in
    let history :=
      if Nat.ltb 20 (List.length history) then last_n 20 history else history in
    Returned (response, set_history self history, db').

(** [get_response]: the [try] block, and the handler of
    [except Exception as e]. *)
Definition get_response (self : SimpleChatbot) (db : database)
    (env : environment) (message : str) : str * SimpleChatbot * database :=
  match get_response_try self db env message with
  | Returned r => r
  | Failed msg =>
      (u "I encountered an error: " ++ msg ++ u ". Please try rephrasing your message.",
       self, db)
  end.

(** *** Notions used to state the properties *)

(** The branch of [get_response] that a message takes: the conditions of
    its [if] chain, in order. *)
Inductive route : Type := Empty | History | Clear | Stats | Chat.

Definition route_of (message : str) : route :=
  if negb (truthy message) || negb (truthy (strip message)) then Empty
  else if contains (u "conversation history") (lower message)
          || contains (u "chat history") (lower message) then History
  else if contains (u "clear history") (lower message) then Clear
  else if contains (u "stats") (lower message)
          || contains (u "statistics") (lower message) then Stats
  else Chat.

(** A sequence of calls on one instance: each call comes with the
    environment it runs in. *)
Definition call : Type := (environment * str)%type.
Definition session : Type := (SimpleChatbot * database)%type.

Definition step (st : session) (c : call) : session :=
  let '(_, self', db') := get_response (fst st) (snd st) (fst c) (snd c) in
  (self', db').

Definition reply (st : session) (c : call) : str :=
  fst (fst (get_response (fst st) (snd st) (fst c) (snd c))).

Definition run (st : session) (calls : list call) : session :=
  fold_left step calls st.

(** The (input, response) pairs of a sequence of calls, oldest first. *)
Fixpoint transcript (st : session) (calls : list call) : list (str * str) :=
  match calls with
  | [] => []
  | c :: rest => (snd c, reply st c) :: transcript (step st c) rest
  end.

(** A call that reaches the matcher and whose INSERT goes through. *)
Definition chats (c : call) : Prop :=
  route_of (snd c) = Chat /\ storage_error (fst c) = None.




(** The categories that [find_best_response] handles apart. *)
Definition special (p : pattern_info) : bool :=
  str_eqb (category p) (u "math") || str_eqb (category p) (u "time")
  || str_eqb (category p) (u "date").

(** A pattern that takes part in the choice of the best match on input
    [s]: it matches, is of no special category and has a response. *)
Definition candidate (p : pattern_info) (s : str) : bool :=
  pattern p s && negb (special p) && truthy (response p).

(** The whole string is in [[\d+\-*/().]+], with the [\d] of Python. *)
Definition math_grammar (e : str) : bool :=
  truthy e && forallb is_math_char e.

End Methods.

(** The grammar [^[0-9+\-*/().]+$] read with ASCII digits only. *)
Definition is_ascii_math_char (c : char) : bool :=
  is_ascii_digit c || Re.is_operator c
  || char_eqb c 0x28%N || char_eqb c 0x29%N || char_eqb c 0x2e%N.

Definition ascii_math_grammar (e : str) : bool :=
  truthy e && forallb is_ascii_math_char e.


Definition has_char (c : char) (s : str) : bool := existsb (char_eqb c) s.

(** A number whose value is a whole number: any [int], and a float
    without fractional bits. *)
Definition is_integral (v : value) : bool :=
  match v with
  | VInt _ => true
  | VFloat (S754_zero _) => true
  | VFloat (S754_finite _ m e) =>
      (0 <=? e)%Z || (Zpos m mod 2 ^ (- e) =? 0)%Z
  | _ => false
  end.

(** An [eval] that behaves as the reference semantics says, wherever the
    latter speaks. *)
Definition agrees_with_reference (eval : str -> eval_result) : Prop :=
  forall s r, PyEval.py_eval s = Some r -> eval s = r.

(** The reference semantics made total, for running examples: outside
    the fragment it answers with a SyntaxError. *)
Definition reference_eval (s : str) : eval_result :=
  match PyEval.py_eval s with
  | Some r => r
  | None => Raised SyntaxError
  end.



(** A store holding two patterns of weight zero on the same word. *)
Definition ping_row (answer : string) : pattern_row :=
  {| row_pattern := Re.alts ["ping"];
     row_response := u answer;
     row_category := u "general";
     row_weight := 0 |}.


(** An environment in which the store works. *)
Definition fair_weather : environment :=
  {| clock_time := u "12:00:00";
     clock_date := u "Tuesday, November 03, 2026";
     storage_error := None |}.

(** An environment in which [sqlite3] raises. *)
Definition locked : environment :=
  {| clock_time := u "12:00:00";
     clock_date := u "Tuesday, November 03, 2026";
     storage_error := Some (u "database is locked") |}.

End Chatbot.

(* ================================================================= *)
(** ** The callers of [get_response] *)

Module Callers.
Import PyStr PyNum Chatbot.
Local Open Scope string_scope.
Local Open Scope list_scope.

(** *** [chat_cli.py] *)

(** What one turn of the [while True] loop of [main] does after reading
    a line: it leaves the loop, starts the loop again without printing,
    or prints the reply of the chatbot. *)
Inductive cli_step : Type :=
| Leave
| Again
| Answer (response : str).

Definition exit_words : list str :=
  [u "quit"; u "exit"; u "bye"; u "goodbye"].

(** One turn of the loop on the line that [input] returns. *)
Definition cli_turn (lower : str -> str) (eval : str -> eval_result)
    (chatbot : SimpleChatbot) (db : database) (env : environment)
    (line : str) : cli_step * SimpleChatbot * database :=
  let user_input := strip line in
  if existsb (str_eqb (lower user_input)) exit_words then
    (Leave, chatbot, db)
  else if negb (truthy user_input) then
    (Again, chatbot, db)
  else
    let '(response, chatbot', db') :=
      get_response lower eval chatbot db env user_input in
    (Answer response, chatbot', db').

(** *** [chat_fastapi.py] *)

(** [HTTPException(status_code, detail)]; it is an [Exception]. *)
Record http_exception : Type := {
  status_code : nat;
  detail : str
}.

(** An endpoint returns its response model or raises. *)
Inductive endpoint (A : Type) : Type :=
| Responds (a : A)
| Raises (e : http_exception).
Arguments Responds {A} a.
Arguments Raises {A} e.

(** [ChatResponse(response=..., status="success")] *)
Record chat_response : Type := {
  response_text : str;
  status : str
}.

(** The [try] block of [chat_endpoint]. *)
Definition chat_endpoint_try (lower : str -> str) (eval : str -> eval_result)
    (chatbot : SimpleChatbot) (db : database) (env : environment)
    (message : str)
  : endpoint (chat_response * SimpleChatbot * database) :=
  if negb (truthy (strip message)) then
    Raises {| status_code := 400; detail := u "Empty message" |}
  else
    let '(response, chatbot', db') :=
      get_response lower eval chatbot db env message in
    Responds ({| response_text := response; status := u "success" |},
              chatbot', db').

(** [chat_endpoint]: the [try] block and its handler
    [except Exception as e: raise HTTPException(500, detail=str(e))],
    which also catches the exception that the block raises itself.
    [exception_str] is [str(e)] of an [HTTPException]. *)
Definition chat_endpoint (exception_str : http_exception -> str)
    (lower : str -> str) (eval : str -> eval_result)
    (chatbot : SimpleChatbot) (db : database) (env : environment)
    (message : str)
  : endpoint chat_response * SimpleChatbot * database :=
  match chat_endpoint_try lower eval chatbot db env message with
  | Responds (r, chatbot', db') => (Responds r, chatbot', db')
  | Raises e =>
      (Raises {| status_code := 500; detail := exception_str e |}, chatbot, db)
  end.

(** [get_history]: [chatbot.conversation_history[-10:]]. *)
Definition get_history (chatbot : SimpleChatbot) : list (str * str) :=
  last_n 10 (conversation_history chatbot).

End Callers.

(* ================================================================= *)
(** ** Further notions used in statements *)

Module Notions.
Import PyStr PyNum Chatbot.
Local Open Scope string_scope.
Local Open Scope list_scope.

(** The class [[\d\+\-\*\/\(\)\.\s]] of the extraction in
    [find_best_response]. *)
Definition math_class (c : char) : bool := is_math_char c || isspace c.

(** A call whose exchange is written to table [conversations]. *)
Definition logged (lower : str -> str) (c : call) : bool :=
  match route_of lower (snd c), storage_error (fst c) with
  | Chat, None => true
  | _, _ => false
  end.

(** The states of the search for a pattern that matches the empty
    string: the search itself stays among the alternatives. *)
Inductive holding (k : Re.regex) : Re.regex -> Prop :=
| holding_start : holding k (Re.Cat Re.anything k)
| holding_more (r x : Re.regex) : holding k r -> holding k (Re.Alt r x).

(** The texts of [handle_math], [find_best_response] and [get_response]. *)
Definition whitelist_message : str :=
  u "I can only handle basic math with +, -, *, / and parentheses.".

Definition last_resort : str := u "I'm not sure how to respond to that.".

Definition say_something : str :=
  u "Please say something! I'm here to chat with you.".

Definition first_conversation : str :=
  u "We haven't chatted yet! This is our first conversation.".

Definition cannot_solve : str :=
  u "I couldn't solve that math problem. Please check your expression.".

(** *** The type of the result of an arithmetic expression *)

(** The two numeric types of Python that the expressions reach. *)
Inductive numeric : Type := Int | Float.

(** An expression whose value, if it is an [int], cannot be negative:
    no subtraction and no minus sign in it. *)
Fixpoint never_negative (e : PyEval.expr) : bool :=
  match e with
  | PyEval.ENum (VInt z) => (0 <=? z)%Z
  | PyEval.ENum _ => false
  | PyEval.ENeg _ => false
  | PyEval.EPos e1 => never_negative e1
  | PyEval.EBin PyEval.Sub _ _ | PyEval.EBin PyEval.Div _ _ => false
  | PyEval.EBin _ a b => never_negative a && never_negative b
  end.

(** The rule of Python's arithmetic for the type of a result, read off
    the syntax: [/] gives a float; [+], [-] and [*] give an int on two
    ints and a float as soon as one operand is a float; [//] on two ints
    gives an int, and so does [**] on two ints when the exponent cannot
    be negative.  [None]: the rule says nothing here. *)
Fixpoint kind_of (e : PyEval.expr) : option numeric :=
  match e with
  | PyEval.ENum (VInt _) => Some Int
  | PyEval.ENum (VFloat _) => Some Float
  | PyEval.ENum (VOther _) => None
  | PyEval.ENeg e1 | PyEval.EPos e1 => kind_of e1
  | PyEval.EBin op a b =>
      match kind_of a, kind_of b with
      | Some Int, Some Int =>
          match op with
          | PyEval.Div => Some Float
          | PyEval.Pow => if never_negative b then Some Int else None
          | _ => Some Int
          end
      | Some _, Some _ =>
          match op with
          | PyEval.FloorDiv | PyEval.Pow => None
          | _ => Some Float
          end
      | _, _ => None
      end
  end.

(** The string [s] is read by Python as the expression [e]. *)
Definition reads_as (s : str) (e : PyEval.expr) : Prop :=
  exists ts : list PyEval.token,
    PyEval.lex (S (List.length s)) s = PyEval.Tokens ts
    /\ PyEval.outside_fragment ts = false
    /\ PyEval.parse_sum (8 * List.length ts + 8) ts = PyEval.Parsed e [].

End Notions.

(* ================================================================= *)
(** ** Properties of the arithmetic evaluator *)

Module MathProperties.
Import PyStr PyNum Chatbot Notions.
Local Open Scope string_scope.
Local Open Scope list_scope.

Lemma dropwhile_all (p : char -> bool) (s : str) :
  forallb p s = true -> dropwhile p s = [].
Proof.
  induction s as [|c s IH]; simpl; [reflexivity|].
  intros H. apply andb_prop in H. destruct H as [Hc Hs].
  rewrite Hc. now apply IH.
Qed.

(** What survives [clean] is made of characters of the class. *)
Lemma clean_math_chars (expression : str) :
  forallb is_math_char (clean expression) = true.
Proof.
  apply forallb_forall. intros c Hc. unfold clean in Hc.
  apply filter_In in Hc. destruct Hc as [Hc Hns].
  apply filter_In in Hc. destruct Hc as [_ Hk].
  destruct (isspace c); [discriminate|].
  now rewrite orb_false_r in Hk.
Qed.

(** On a cleaned string the [re.match] test is the grammar, and fails on
    the empty string only. *)
Lemma match_whitelist_clean (expression : str) :
  match_whitelist (clean expression) = math_grammar (clean expression).
Proof.
  pose proof (clean_math_chars expression) as H.
  unfold match_whitelist, math_grammar.
  destruct (clean expression) as [|c e] eqn:E; [reflexivity|].
  rewrite (dropwhile_all _ _ H). rewrite H.
  simpl in H. apply andb_prop in H. destruct H as [Hc _].
  now rewrite Hc.
Qed.


(** With an [eval] that follows the reference semantics, [handle_math]
    is determined by the reference outcome. *)
Lemma handle_math_reference (eval : str -> eval_result) (expression : str)
    (r : eval_result) :
  agrees_with_reference eval ->
  PyEval.py_eval (clean expression) = Some r ->
  handle_math eval expression = handle_math (fun _ => r) expression.
Proof.
  intros Hag Hr. unfold handle_math.
  destruct (negb (match_whitelist (clean expression))); [reflexivity|].
  now rewrite (Hag _ _ Hr).
Qed.

Lemma reference_eval_agrees : agrees_with_reference reference_eval.
Proof.
  intros s r H. unfold reference_eval. now rewrite H.
Qed.

Ltac by_reference Hag r :=
  rewrite (@handle_math_reference _ _ r Hag) by (vm_compute; reflexivity);
  vm_compute; reflexivity.

Lemma has_char_app (c : char) (a b : str) :
  has_char c (a ++ b) = has_char c a || has_char c b.
Proof. apply existsb_app. Qed.

(** The decimal writing of an [int] holds digits and a sign only. *)
Lemma string_of_uint_digits (d : Decimal.uint) (c : char) :
  In c (u (NilEmpty.string_of_uint d)) -> is_ascii_digit c = true.
Proof.
  induction d; simpl; try contradiction;
    (intros [H|H]; [subst c; reflexivity | now apply IHd]).
Qed.

Lemma nilzero_digits (d : Decimal.uint) (c : char) :
  In c (u (NilZero.string_of_uint d)) -> is_ascii_digit c = true.
Proof.
  unfold NilZero.string_of_uint.
  destruct d; try apply string_of_uint_digits.
  simpl. intros [H|[]]. now subst c.
Qed.

Lemma str_of_Z_chars (z : Z) (c : char) :
  In c (str_of_Z z) -> c = 0x2d%N \/ is_ascii_digit c = true.
Proof.
  unfold str_of_Z, NilZero.string_of_int.
  destruct (Z.to_int z) as [d|d].
  - intros H. right. now apply (nilzero_digits d).
  - intros [H|H]; [now left|]. right. now apply (nilzero_digits d).
Qed.

Lemma str_of_Z_no_point (z : Z) : has_char 0x2e%N (str_of_Z z) = false.
Proof.
  unfold has_char. apply not_true_is_false. intros H.
  apply existsb_exists in H. destruct H as [c [Hin Hc]].
  apply N.eqb_eq in Hc. subst c.
  destruct (str_of_Z_chars _ _ Hin) as [H|H]; discriminate.
Qed.

(** The [repr] of a finite float always shows that it is a float: it
    holds a decimal point or an exponent. *)
Lemma format_digits_marked (ds : str) (decpt : Z) :
  has_char 0x2e%N (format_digits ds decpt)
  || has_char 0x65%N (format_digits ds decpt) = true.
Proof.
  unfold format_digits.
  destruct ((decpt <=? -4)%Z || (16 <? decpt)%Z).
  - rewrite !has_char_app.
    replace (has_char 0x65%N (u "e")) with true by reflexivity.
    now rewrite ?orb_true_r, ?orb_true_l.
  - destruct (decpt <=? 0)%Z.
    + reflexivity.
    + destruct (Z.of_nat (List.length ds) <=? decpt)%Z;
        rewrite !has_char_app.
      * replace (has_char 0x2e%N (u ".0")) with true by reflexivity.
        now rewrite ?orb_true_r, ?orb_true_l.
      * replace (has_char 0x2e%N (u ".")) with true by reflexivity.
        now rewrite ?orb_true_r, ?orb_true_l.
Qed.

Lemma repr_float_marked (f : float) :
  is_finite f = true ->
  has_char 0x2e%N (repr_float f) || has_char 0x65%N (repr_float f) = true.
Proof.
  destruct f as [s|s| |s m e]; try discriminate; intros _.
  - now destruct s.
  - unfold repr_float.
    destruct (if (0 <=? e)%Z then _ else _) as [num den].
    destruct (shortest _ _ _ _ _ _ _) as [c k].
    rewrite !has_char_app.
    pose proof (format_digits_marked
                  (strip_trailing_zeros (str_of_Z c))
                  (k + Z.of_nat (List.length (str_of_Z c)))) as H.
    apply orb_true_iff in H. destruct H as [H|H]; rewrite H;
      now rewrite ?orb_true_r.
Qed.

(** True division of two ints never returns an int. *)
Lemma int_true_divide_float (a b : Z) (v : value) :
  PyEval.int_true_divide a b = Evaluated v -> exists f, v = VFloat f.
Proof.
  unfold PyEval.int_true_divide.
  destruct b; [discriminate| |];
    (destruct a;
     [ intros H; inversion H; eauto
     | destruct (is_finite _); [intros H; inversion H; eauto | discriminate] ..]).
Qed.

(** Below U+0080 the decimal digits are [0-9]: on ASCII input the class
    of the code and the class [[0-9+\-*/().]] are the same. *)
Lemma isdecimal_ascii (c : char) :
  (c < 128)%N -> isdecimal c = is_ascii_digit c.
Proof.
  intros H. unfold isdecimal, Nd_blocks. cbn [existsb].
  unfold is_ascii_digit.
  repeat match goal with
  | |- context [in_block c ?b] =>
      lazymatch b with
      | 48%N => fail
      | _ => replace (in_block c b) with false
               by (symmetry; unfold in_block; apply andb_false_iff; left;
                   apply N.leb_gt; lia)
      end
  end.
  now rewrite !orb_false_r.
Qed.

Lemma ascii_input_same_grammar (expression : str) :
  forallb (fun c => (c <? 128)%N) expression = true ->
  ascii_math_grammar (clean expression) = math_grammar (clean expression).
Proof.
  intros H. unfold ascii_math_grammar, math_grammar. f_equal.
  assert (Hc : forall c, In c (clean expression) -> (c < 128)%N).
  { intros c Hin. unfold clean in Hin.
    apply filter_In in Hin. destruct Hin as [Hin _].
    apply filter_In in Hin. destruct Hin as [Hin _].
    rewrite forallb_forall in H. now apply N.ltb_lt, H. }
  induction (clean expression) as [|c e IH]; [reflexivity|].
  simpl. rewrite IH by (intros c' Hin; apply Hc; now right).
  f_equal. unfold is_ascii_math_char, is_math_char.
  rewrite isdecimal_ascii; [reflexivity|]. apply Hc. now left.
Qed.

(** *** The claims about [handle_math] *)

(** C2, as the spec words it, fails: the digit class of the code is
    Python's [\d], so a string made of the Arabic-Indic digit one
    (U+0661) survives the cleaning, is outside [^[0-9+\-*/().]+$], and
    is nevertheless handed to [eval], whatever [eval] is. *)
Lemma whitelist_lets_non_ascii_digit_through :
  ~ exists eval : str -> eval_result,
      forall expression : str,
        ascii_math_grammar (clean expression) = false ->
        handle_math eval expression
        = u "I can only handle basic math with +, -, *, / and parentheses.".
Proof.
  intros [eval H]. specialize (H [0x661%N] eq_refl).
  unfold handle_math in H.
  change (clean [0x661%N]) with [0x661%N] in H.
  change (negb (match_whitelist [0x661%N])) with false in H.
  cbv iota in H.
  destruct (eval [0x661%N]) as [v|[]];
    [destruct (format_value v)|..]; discriminate H.
Qed.

(** C2, amended: the whitelist, with [\d] ranging over all Unicode
    decimal digits, is enforced before evaluation.  A cleaned string
    outside [[\d+\-*/().]+] gets the fixed message whatever [eval] would
    do, and the reply depends on [eval] only through its values on
    strings of that grammar: two evaluators that agree there give the
    same reply. *)
Theorem whitelist_enforced_before_eval
    (eval eval' : str -> eval_result) (expression : str) :
  (forall e, math_grammar e = true -> eval e = eval' e) ->
  handle_math eval expression = handle_math eval' expression
  /\ (math_grammar (clean expression) = false ->
      handle_math eval expression
      = u "I can only handle basic math with +, -, *, / and parentheses.").
Proof.
  intros Hagree. unfold handle_math.
  rewrite !match_whitelist_clean.
  destruct (math_grammar (clean expression)) eqn:G; simpl.
  - rewrite (Hagree _ G). split; [reflexivity | discriminate].
  - split; reflexivity.
Qed.

(** An evaluator that would answer 42 to anything outside the grammar is
    never caught doing so. *)
Lemma whitelist_enforced_before_eval_witness :
  (forall e, math_grammar e = true ->
     reference_eval e
     = (fun e' => if math_grammar e' then reference_eval e'
                  else Evaluated (VInt 42)) e)
  /\ handle_math reference_eval (u "what is 2 + 2?")
     = handle_math (fun e' => if math_grammar e' then reference_eval e'
                              else Evaluated (VInt 42)) (u "what is 2 + 2?").
Proof.
  assert (H : forall e, math_grammar e = true ->
     reference_eval e
     = (fun e' => if math_grammar e' then reference_eval e'
                  else Evaluated (VInt 42)) e).
  { intros e G. simpl. rewrite G. reflexivity. }
  split; [exact H|].
  exact (proj1 (@whitelist_enforced_before_eval reference_eval _
                  (u "what is 2 + 2?") H)).
Defined.

(** C5: ["5 + 3 * 2"] gives 11.  Products and quotients bind tighter
    than sums and differences, operators of one level associate to the
    left, and parentheses override both; this holds for every [eval]
    that follows the reference semantics of Python arithmetic.  The last
    four statements say it for all integers, on the tokens of
    [x + y * z], [x * y + z], [(x + y) * z] and [x - y - z]. *)
Theorem handle_math_precedence (eval : str -> eval_result) :
  agrees_with_reference eval ->
  handle_math eval (u "5 + 3 * 2") = u "The answer is: 11"
  /\ handle_math eval (u "(5 + 3) * 2") = u "The answer is: 16"
  /\ handle_math eval (u "5 * 3 + 2") = u "The answer is: 17"
  /\ handle_math eval (u "20 - 8 / 2") = u "The answer is: 16.0"
  /\ handle_math eval (u "20 - 8 - 2") = u "The answer is: 10"
  /\ handle_math eval (u "2 + 3 * 4 - 6 // 2") = u "The answer is: 11"
  /\ handle_math eval (u "2 * (3 + 4) * 5") = u "The answer is: 70"
  /\ (forall x y z : Z,
      PyEval.eval_tokens
        [PyEval.TNum (VInt x); PyEval.TPlus; PyEval.TNum (VInt y);
         PyEval.TStar; PyEval.TNum (VInt z)]
      = Some (Evaluated (VInt (x + y * z))))
  /\ (forall x y z : Z,
      PyEval.eval_tokens
        [PyEval.TNum (VInt x); PyEval.TStar; PyEval.TNum (VInt y);
         PyEval.TPlus; PyEval.TNum (VInt z)]
      = Some (Evaluated (VInt (x * y + z))))
  /\ (forall x y z : Z,
      PyEval.eval_tokens
        [PyEval.TLParen; PyEval.TNum (VInt x); PyEval.TPlus;
         PyEval.TNum (VInt y); PyEval.TRParen; PyEval.TStar;
         PyEval.TNum (VInt z)]
      = Some (Evaluated (VInt ((x + y) * z))))
  /\ (forall x y z : Z,
      PyEval.eval_tokens
        [PyEval.TNum (VInt x); PyEval.TMinus; PyEval.TNum (VInt y);
         PyEval.TMinus; PyEval.TNum (VInt z)]
      = Some (Evaluated (VInt (x - y - z)))).
Proof.
  intros Hag. repeat split.
  - by_reference Hag (Evaluated (VInt 11)).
  - by_reference Hag (Evaluated (VInt 16)).
  - by_reference Hag (Evaluated (VInt 17)).
  - by_reference Hag (Evaluated (VFloat (S754_finite false 4503599627370496 (-48)))).
  - by_reference Hag (Evaluated (VInt 10)).
  - by_reference Hag (Evaluated (VInt 11)).
  - by_reference Hag (Evaluated (VInt 70)).
Qed.

Lemma handle_math_precedence_witness :
  agrees_with_reference reference_eval
  /\ handle_math reference_eval (u "5 + 3 * 2") = u "The answer is: 11".
Proof.
  split; [exact reference_eval_agrees|].
  exact (proj1 (handle_math_precedence reference_eval_agrees)).
Defined.

(** C6: an expression that passed the character check and whose
    evaluation raises ZeroDivisionError gets the division-by-zero
    message; one whose evaluation raises anything else gets the generic
    message; the two messages differ.  With Python's arithmetic,
    ["5 / 0"] is of the first kind, a trailing operator and an unclosed
    parenthesis are of the second. *)
Theorem division_by_zero_message (eval : str -> eval_result) (expression : str) :
  match_whitelist (clean expression) = true ->
  (eval (clean expression) = Raised ZeroDivisionError ->
   handle_math eval expression = u "Oops! Division by zero is not allowed.")
  /\ (forall c, eval (clean expression) = Raised c -> c <> ZeroDivisionError ->
      handle_math eval expression
      = u "I couldn't solve that math problem. Please check your expression.")
  /\ u "Oops! Division by zero is not allowed."
     <> u "I couldn't solve that math problem. Please check your expression."
  /\ (agrees_with_reference eval ->
      handle_math eval (u "5 / 0") = u "Oops! Division by zero is not allowed."
      /\ handle_math eval (u "7 // (3 - 3)") = u "Oops! Division by zero is not allowed."
      /\ handle_math eval (u "1.5 / 0.0") = u "Oops! Division by zero is not allowed."
      /\ handle_math eval (u "1 + ")
         = u "I couldn't solve that math problem. Please check your expression."
      /\ handle_math eval (u "(1 + 2")
         = u "I couldn't solve that math problem. Please check your expression.").
Proof.
  intros Hw. unfold handle_math at 1 2. rewrite Hw. simpl negb. cbv iota.
  split; [|split; [|split]].
  - intros E. now rewrite E.
  - intros c E Hc. rewrite E. destruct c; try reflexivity. now elim Hc.
  - discriminate.
  - intros Hag. repeat split.
    + by_reference Hag (Raised ZeroDivisionError).
    + by_reference Hag (Raised ZeroDivisionError).
    + by_reference Hag (Raised ZeroDivisionError).
    + by_reference Hag (Raised SyntaxError).
    + by_reference Hag (Raised SyntaxError).
Qed.

Lemma division_by_zero_message_witness :
  match_whitelist (clean (u "5 / 0")) = true
  /\ reference_eval (clean (u "5 / 0")) = Raised ZeroDivisionError
  /\ handle_math reference_eval (u "5 / 0")
     = u "Oops! Division by zero is not allowed.".
Proof.
  split; [reflexivity|]. split; [reflexivity|].
  apply (proj1 (@division_by_zero_message reference_eval (u "5 / 0") eq_refl)).
  reflexivity.
Defined.

(** In the reference semantics a division by an int zero raises
    ZeroDivisionError, whatever number the dividend is. *)
Lemma divide_by_int_zero (op : PyEval.binop) (a b : PyEval.expr) (va : value) :
  op = PyEval.Div \/ op = PyEval.FloorDiv ->
  PyEval.eval_expr a = Some (Evaluated va) ->
  (forall t, va <> VOther t) ->
  (forall z, va = VInt z -> float_of_int z <> None) ->
  PyEval.eval_expr b = Some (Evaluated (VInt 0)) ->
  PyEval.eval_expr (PyEval.EBin op a b) = Some (Raised ZeroDivisionError).
Proof.
  intros Hop Ha Hnot Hfin Hb. simpl. rewrite Ha, Hb.
  destruct va as [z|f|t]; [| |now elim (Hnot t)].
  - destruct Hop; subst op; reflexivity.
  - destruct Hop; subst op; reflexivity.
Qed.

(** C7, as the spec words it, fails: the quotient of ["10 / 2"] is the
    whole number 5, and the reply shows it with a decimal point. *)
Lemma integral_quotient_keeps_point :
  ~ forall (eval : str -> eval_result),
      agrees_with_reference eval ->
      forall (expression : str) (v : value),
        match_whitelist (clean expression) = true ->
        eval (clean expression) = Evaluated v ->
        is_integral v = true ->
        has_char 0x2e%N (handle_math eval expression) = false.
Proof.
  intros H.
  specialize (H reference_eval reference_eval_agrees (u "10 / 2")
                (VFloat (S754_finite false 5629499534213120 (-50)))
                eq_refl eq_refl eq_refl).
  vm_compute in H. discriminate H.
Qed.

(** The evaluator follows the typing rule: an expression that the rule
    gives a type evaluates, to a value of that type or to an exception
    (a division by zero, for an expression of type int). *)
Lemma kind_of_sound (e : PyEval.expr) :
  match kind_of e with
  | Some Int =>
      exists r, PyEval.eval_expr e = Some r
        /\ (r = Raised ZeroDivisionError
            \/ exists z, r = Evaluated (VInt z)
                         /\ (never_negative e = true -> (0 <= z)%Z))
  | Some Float =>
      exists r, PyEval.eval_expr e = Some r
        /\ ((exists c, r = Raised c) \/ exists f, r = Evaluated (VFloat f))
  | None => True
  end.
Proof.
  induction e as [v|e1 IH|e1 IH|op a IHa b IHb].
  - destruct v as [z|f|t]; simpl; [| |exact I].
    + eexists; split; [reflexivity|]. right. exists z. split; [reflexivity|].
      intros H. now apply Z.leb_le.
    + eexists; split; [reflexivity|]. right. now exists f.
  - simpl. destruct (kind_of e1) as [[|]|]; [| |exact I].
    + destruct IH as (r & -> & [->|(z & -> & _)]).
      * eexists; split; [reflexivity|]. now left.
      * eexists; split; [reflexivity|]. right. exists (- z)%Z.
        split; [reflexivity | discriminate].
    + destruct IH as (r & -> & [[c ->]|[f ->]]).
      * eexists; split; [reflexivity|]. left. now exists c.
      * eexists; split; [reflexivity|]. right. now exists (SFopp f).
  - simpl. exact IH.
  - simpl kind_of.
    destruct (kind_of a) as [[|]|]; [| |exact I];
      (destruct (kind_of b) as [[|]|]; [| |exact I]).
    + (* int, int *)
      destruct IHa as (ra & Ea & Ha). destruct IHb as (rb & Eb & Hb).
      assert (Hl : ra = Raised ZeroDivisionError ->
                   PyEval.eval_expr (PyEval.EBin op a b)
                   = Some (Raised ZeroDivisionError)).
      { intros ->. simpl. now rewrite Ea. }
      assert (Hr : forall x, ra = Evaluated (VInt x) ->
                   rb = Raised ZeroDivisionError ->
                   PyEval.eval_expr (PyEval.EBin op a b)
                   = Some (Raised ZeroDivisionError)).
      { intros x -> ->. simpl. now rewrite Ea, Eb. }
      destruct op;
        try (destruct (never_negative b) eqn:Hnb; [|exact I]);
        (destruct Ha as [Ha|(x & Ha & Hx)];
         [ exists (Raised ZeroDivisionError); split; [now apply Hl|];
           first [now left | left; eauto] |]);
        (destruct Hb as [Hb|(y & Hb & Hy)];
         [ exists (Raised ZeroDivisionError); split; [now apply (Hr x)|];
           first [now left | left; eauto] |]);
        clear Hl Hr; subst ra rb; simpl; rewrite Ea, Eb; simpl.
      * eexists; split; [reflexivity|]. right. eexists; split; [reflexivity|].
        intros H. apply andb_prop in H. destruct H as [H1 H2].
        specialize (Hx H1). specialize (Hy H2). lia.
      * eexists; split; [reflexivity|]. right. eexists; split; [reflexivity|].
        discriminate.
      * eexists; split; [reflexivity|]. right. eexists; split; [reflexivity|].
        intros H. apply andb_prop in H. destruct H as [H1 H2].
        specialize (Hx H1). specialize (Hy H2). nia.
      * eexists; split; [reflexivity|].
        unfold PyEval.int_true_divide.
        destruct y; [left; eauto| |];
          (destruct x; [right; eauto| |]);
          (destruct (is_finite _); [right; eauto | left; eauto]).
      * destruct (y =? 0)%Z eqn:Hy0.
        -- eexists; split; [reflexivity|]. now left.
        -- eexists; split; [reflexivity|]. right. eexists; split; [reflexivity|].
           intros H. apply andb_prop in H. destruct H as [H1 H2].
           specialize (Hx H1). specialize (Hy H2).
           apply Z.eqb_neq in Hy0. apply Z.div_pos; lia.
      * specialize (Hy eq_refl).
        rewrite (proj2 (Z.leb_le 0 y) Hy).
        eexists; split; [reflexivity|]. right. eexists; split; [reflexivity|].
        intros H. apply andb_prop in H. destruct H as [H1 _].
        specialize (Hx H1). now apply Z.pow_nonneg.
    + (* int, float *)
      destruct IHa as (ra & Ea & Ha). destruct IHb as (rb & Eb & Hb).
      destruct op; try exact I;
        (destruct Ha as [->|(x & -> & _)];
         [ eexists; split; [simpl; rewrite Ea; reflexivity|]; left; eauto |];
         destruct Hb as [[c ->]|[y ->]];
         [ eexists; split; [simpl; rewrite Ea, Eb; reflexivity|]; left; eauto |];
         simpl; rewrite Ea, Eb; simpl;
         destruct (float_of_int x);
         [ try (destruct (is_zero y));
           (eexists; split; [reflexivity|]); first [right; eauto; fail | left; eauto]
         | eexists; split; [reflexivity|]; left; eauto ]).
    + (* float, int *)
      destruct IHa as (ra & Ea & Ha). destruct IHb as (rb & Eb & Hb).
      destruct op; try exact I;
        (destruct Ha as [[c ->]|[x ->]];
         [ eexists; split; [simpl; rewrite Ea; reflexivity|]; left; eauto |];
         destruct Hb as [->|(y & -> & _)];
         [ eexists; split; [simpl; rewrite Ea, Eb; reflexivity|]; left; eauto |];
         simpl; rewrite Ea, Eb; simpl;
         destruct (float_of_int y) as [fy|];
         [ try (destruct (is_zero fy));
           (eexists; split; [reflexivity|]); first [right; eauto; fail | left; eauto]
         | eexists; split; [reflexivity|]; left; eauto ]).
    + (* float, float *)
      destruct IHa as (ra & Ea & Ha). destruct IHb as (rb & Eb & Hb).
      destruct op; try exact I;
        (destruct Ha as [[c ->]|[x ->]];
         [ eexists; split; [simpl; rewrite Ea; reflexivity|]; left; eauto |];
         destruct Hb as [[c ->]|[y ->]];
         [ eexists; split; [simpl; rewrite Ea, Eb; reflexivity|]; left; eauto |];
         simpl; rewrite Ea, Eb; simpl;
         try (destruct (is_zero y));
         (eexists; split; [reflexivity|]); first [right; eauto; fail | left; eauto]).
Qed.

(** What the reference semantics says of a string that Python reads as
    [e]. *)
Lemma py_eval_reads_as (s : str) (e : PyEval.expr) :
  reads_as s e -> PyEval.py_eval s = PyEval.eval_expr e.
Proof.
  intros (ts & Hl & Ho & Hp).
  unfold PyEval.py_eval, PyEval.eval_tokens. now rewrite Hl, Ho, Hp.
Qed.

Lemma handle_math_evaluated (eval : str -> eval_result) (expression : str)
    (v : value) :
  match_whitelist (clean expression) = true ->
  eval (clean expression) = Evaluated v ->
  handle_math eval expression
  = match format_value v with
    | Some text => u "The answer is: " ++ text
    | None => cannot_solve
    end.
Proof.
  intros Hw E. unfold handle_math. now rewrite Hw, E.
Qed.

(** C7, amended: when the evaluation succeeds the reply is ["The answer
    is: "] followed by Python's [str] of the result, which goes by the
    type of the result and not by its value.  An [int] is written with
    digits only, without a decimal point, unless it has more digits than
    Python converts to text: the conversion then raises inside the [try]
    block and the reply is the message for errors.  A [float] is written
    by [repr], for a finite one always with a decimal point or an
    exponent, also when its value is a whole number.  The type follows
    from the expression: integer literals combined by [+], [-], [*],
    [//], signs and [**] with an exponent that cannot be negative give
    an int; a true division, and [+], [-], [*], [/] with a float
    operand, give a float.  So ["10 / 2"] gives 5.0 and ["10 // 2"]
    gives 5. *)
Theorem answer_rendering (eval : str -> eval_result) (expression : str) (v : value) :
  match_whitelist (clean expression) = true ->
  eval (clean expression) = Evaluated v ->
  (forall z, v = VInt z ->
     (ndigits10 (Z.abs z) <= int_max_str_digits)%nat ->
     handle_math eval expression = u "The answer is: " ++ str_of_Z z
     /\ has_char 0x2e%N (str_of_Z z) = false)
  /\ (forall z, v = VInt z ->
      (int_max_str_digits < ndigits10 (Z.abs z))%nat ->
      handle_math eval expression = cannot_solve)
  /\ (forall f, v = VFloat f ->
      handle_math eval expression = u "The answer is: " ++ repr_float f
      /\ (is_finite f = true ->
          has_char 0x2e%N (repr_float f) || has_char 0x65%N (repr_float f)
          = true))
  /\ (agrees_with_reference eval ->
      forall e : PyEval.expr,
        reads_as (clean expression) e ->
        (kind_of e = Some Int -> exists z, v = VInt z)
        /\ (kind_of e = Some Float -> exists f, v = VFloat f))
  /\ (agrees_with_reference eval ->
      handle_math eval (u "10 / 2") = u "The answer is: 5.0"
      /\ handle_math eval (u "10 // 2") = u "The answer is: 5"
      /\ handle_math eval (u "7 / 2") = u "The answer is: 3.5"
      /\ handle_math eval (u "2.5 * 2") = u "The answer is: 5.0"
      /\ handle_math eval (u "1 / 3") = u "The answer is: 0.3333333333333333"
      /\ handle_math eval (u "2 ** 10") = u "The answer is: 1024"
      /\ handle_math eval (u "10 ** 5000") = cannot_solve).
Proof.
  intros Hw E. pose proof (handle_math_evaluated eval expression Hw E) as Hm.
  split; [|split; [|split; [|split]]].
  - intros z -> Hz. split; [|apply str_of_Z_no_point].
    rewrite Hm. unfold format_value, convertible.
    now rewrite (proj2 (Nat.leb_le _ _) Hz).
  - intros z -> Hz. rewrite Hm. unfold format_value, convertible.
    now rewrite (proj2 (Nat.leb_gt _ _) Hz).
  - intros f ->. split; [exact Hm|]. apply repr_float_marked.
  - intros Hag e Hr.
    pose proof (py_eval_reads_as Hr) as Hp.
    pose proof (kind_of_sound e) as Hk.
    split; intros K; rewrite K in Hk; destruct Hk as (r & Er & Hk);
      rewrite Er in Hp; apply Hag in Hp; rewrite E in Hp; subst r.
    + destruct Hk as [Hk|(z & Hk & _)]; [discriminate Hk|].
      inversion Hk. now exists z.
    + destruct Hk as [[c Hk]|[f Hk]]; [discriminate Hk|].
      inversion Hk. now exists f.
  - intros Hag. repeat split.
    + by_reference Hag (Evaluated (VFloat (S754_finite false 5629499534213120 (-50)))).
    + by_reference Hag (Evaluated (VInt 5)).
    + by_reference Hag (Evaluated (VFloat (S754_finite false 7881299347898368 (-51)))).
    + by_reference Hag (Evaluated (VFloat (S754_finite false 5629499534213120 (-50)))).
    + by_reference Hag (Evaluated (VFloat (S754_finite false 6004799503160661 (-54)))).
    + by_reference Hag (Evaluated (VInt 1024)).
    + by_reference Hag (Evaluated (VInt (10 ^ 5000))).
Qed.

Lemma answer_rendering_witness :
  match_whitelist (clean (u "10 / 2")) = true
  /\ reference_eval (clean (u "10 / 2"))
     = Evaluated (VFloat (S754_finite false 5629499534213120 (-50)))
  /\ handle_math reference_eval (u "10 / 2") = u "The answer is: 5.0".
Proof.
  split; [reflexivity|]. split; [reflexivity|].
  exact (proj1 (proj1 (proj2 (proj2
           (@answer_rendering reference_eval (u "10 / 2") _ eq_refl eq_refl)))
           _ eq_refl)).
Defined.

End MathProperties.

(* ================================================================= *)
(** ** Properties of the matcher *)

Module MatcherProperties.
Import PyStr PyNum Chatbot.
Local Open Scope string_scope.
Local Open Scope list_scope.

Lemma str_eqb_eq (a b : str) : str_eqb a b = true <-> a = b.
Proof.
  revert b. induction a as [|x a IH]; destruct b as [|y b]; simpl;
    try (split; [discriminate | discriminate]); [tauto|].
  unfold char_eqb. rewrite andb_true_iff, N.eqb_eq, IH.
  split; [intros [-> ->]; reflexivity | intros H; inversion H; auto].
Qed.

Lemma Qgtb_true (a b : Q) : Qgtb a b = true <-> (b < a)%Q.
Proof.
  unfold Qgtb. rewrite negb_true_iff.
  split.
  - intros H. apply Qnot_le_lt. intros Hle.
    apply Qle_bool_iff in Hle. congruence.
  - intros H. apply not_true_is_false. intros Hle.
    apply Qle_bool_iff in Hle. now apply Qlt_not_le in H.
Qed.

Lemma Qgtb_false (a b : Q) : Qgtb a b = false <-> (a <= b)%Q.
Proof.
  unfold Qgtb. rewrite negb_false_iff. apply Qle_bool_iff.
Qed.

(** The seed's math pattern needs a decimal digit. *)
Lemma waiting_not_nullable (r : Re.regex) :
  Re.waiting r -> Re.nullable r = false.
Proof.
  induction 1 as [|r _ IH]; [reflexivity|].
  simpl. now rewrite IH.
Qed.

Lemma deriv_math_tail (c : char) :
  isdecimal c = false ->
  Re.deriv c Re.math_tail = Re.math_tail \/ Re.deriv c Re.math_tail = Re.Nothing.
Proof.
  intros Hc. unfold Re.math_tail, Re.math_regex, Re.plus, Re.dot. simpl.
  rewrite Hc. destruct (char_eqb c 0xa%N); simpl; auto.
Qed.

Lemma waiting_deriv (c : char) (r : Re.regex) :
  isdecimal c = false -> Re.waiting r -> Re.waiting (Re.deriv c r).
Proof.
  intros Hc Hw. induction Hw as [|r Hw IH].
  - change (Re.deriv c (Re.Cat Re.anything Re.math_tail))
      with (Re.alt (Re.Cat Re.anything Re.math_tail) (Re.deriv c Re.math_tail)).
    destruct (deriv_math_tail c Hc) as [-> | ->].
    + apply Re.waiting_more, Re.waiting_start.
    + apply Re.waiting_start.
  - change (Re.deriv c (Re.Alt r Re.math_tail))
      with (Re.alt (Re.deriv c r) (Re.deriv c Re.math_tail)).
    destruct (deriv_math_tail c Hc) as [-> | ->].
    + destruct IH; now constructor; constructor.
    + destruct IH; now constructor.
Qed.

Lemma search_math_needs_digit (s : str) :
  forallb (fun c => negb (isdecimal c)) s = true ->
  Re.search Re.math_regex s = false.
Proof.
  unfold Re.search, Re.fullmatch.
  fold Re.math_tail.
  assert (H : forall r, Re.waiting r ->
            forallb (fun c => negb (isdecimal c)) s = true ->
            Re.nullable (fold_left (fun r' c => Re.deriv c r') s r) = false).
  { induction s as [|c s IH]; intros r Hw Hs; simpl.
    - now apply waiting_not_nullable.
    - simpl in Hs. apply andb_prop in Hs. destruct Hs as [Hc Hs].
      apply negb_true_iff in Hc. apply IH; [now apply waiting_deriv | exact Hs]. }
  apply H. constructor.
Qed.

Lemma dropwhile_nil (p : char -> bool) (s : str) :
  dropwhile p s = [] -> forallb p s = true.
Proof.
  induction s as [|c s IH]; simpl; [reflexivity|].
  destruct (p c); [exact IH | discriminate].
Qed.

(** Where the seed's math pattern matches, the extraction of the
    expression finds something. *)
Lemma math_search_finds (s : str) :
  Re.search Re.math_regex s = true -> exists m, math_search s = Some m.
Proof.
  intros Hs. unfold math_search.
  destruct (dropwhile _ s) as [|c rest] eqn:E; [|eauto].
  apply dropwhile_nil in E.
  rewrite search_math_needs_digit in Hs; [discriminate|].
  apply forallb_forall. intros c Hin.
  rewrite forallb_forall in E. specialize (E c Hin).
  apply negb_true_iff in E. apply orb_false_iff in E. destruct E as [E _].
  unfold is_math_char in E.
  destruct (isdecimal c); [discriminate | reflexivity].
Qed.

(** *** The load order *)






Lemma order_by_weight_desc_perm (rows : list pattern_row) :
  Permutation rows (order_by_weight_desc rows).
Proof.
  induction rows as [|r rows IH]; [constructor|].
  simpl order_by_weight_desc.
  transitivity (r :: order_by_weight_desc rows); [now constructor|].
  generalize (order_by_weight_desc rows). clear.
  induction l as [|x l IH]; simpl; [reflexivity|].
  destruct (Qgtb (row_weight x) (row_weight r)); [|reflexivity].
  rewrite perm_swap. now constructor.
Qed.

(** The seed as [load_responses] orders it: math, time and date first,
    the catch-all last. *)
Lemma seed_load_order :
  order_by_weight_desc initial_patterns
  = map (fun n => nth n initial_patterns (ping_row ""))
        [4; 5; 6; 0; 1; 2; 3; 7; 8; 9; 10; 11; 12]%nat.
Proof. reflexivity. Qed.


Section Scan.

Variable lower : str -> str.
Variable eval : str -> eval_result.
Variable env : environment.

(** Every reply of [handle_math] is a non-empty string. *)
Lemma handle_math_nonempty (expression : str) :
  handle_math eval expression <> [].
Proof.
  unfold handle_math.
  destruct (negb _); [discriminate|].
  destruct (eval _) as [v|[]]; [destruct (format_value v)|..]; discriminate.
Qed.

Lemma best_or_default_nonempty (best_match : option str) :
  best_or_default best_match <> [].
Proof.
  unfold best_or_default. destruct best_match as [[|c r]|]; discriminate.
Qed.

(** The matcher never returns the empty string. *)
Lemma scan_nonempty (ps : list pattern_info) (s : str)
    (best_match : option str) (best_confidence : Q) :
  fst (scan eval env ps s best_match best_confidence) <> [].
Proof.
  revert best_match best_confidence.
  induction ps as [|p ps IH]; intros bm bc; simpl.
  - apply best_or_default_nonempty.
  - destruct (pattern p s); [|apply IH].
    destruct (str_eqb (category p) (u "math")).
    { destruct (math_search s); [apply handle_math_nonempty | apply IH]. }
    destruct (str_eqb (category p) (u "time")); [discriminate|].
    destruct (str_eqb (category p) (u "date")); [discriminate|].
    destruct (truthy (response p)); [|apply IH].
    destruct (Qgtb (weight p) bc); apply IH.
Qed.

(** A pattern that does not match, or that is an ordinary pattern, lets
    the loop go on; the best match is then the one it had, or the
    response of a candidate met on the way. *)
Lemma scan_prefix (pre rest : list pattern_info) (s : str)
    (best_match : option str) (best_confidence : Q) :
  (forall q, In q pre -> pattern q s = true -> special q = false) ->
  exists bm bc,
    scan eval env (pre ++ rest) s best_match best_confidence
    = scan eval env rest s bm bc
    /\ ((bm = best_match /\ bc = best_confidence)
        \/ exists q, In q pre /\ candidate q s = true
                     /\ bm = Some (response q) /\ bc = weight q).
Proof.
  revert best_match best_confidence.
  induction pre as [|q pre IH]; intros bm0 bc0 Hsp; simpl.
  - exists bm0, bc0. auto.
  - assert (Hsp' : forall q', In q' pre -> pattern q' s = true -> special q' = false)
      by (intros q' Hin; apply Hsp; now right).
    assert (Hgo : forall bm1 bc1,
              ((bm1 = bm0 /\ bc1 = bc0)
               \/ (candidate q s = true /\ bm1 = Some (response q) /\ bc1 = weight q)) ->
              exists bm bc,
                scan eval env (pre ++ rest) s bm1 bc1 = scan eval env rest s bm bc
                /\ ((bm = bm0 /\ bc = bc0)
                    \/ exists q', (q = q' \/ In q' pre) /\ candidate q' s = true
                                  /\ bm = Some (response q') /\ bc = weight q')).
    { intros bm1 bc1 H1.
      destruct (IH bm1 bc1 Hsp') as (bm & bc & E & H).
      exists bm, bc. split; [exact E|].
      destruct H as [[-> ->] | (q' & Hin & Hc & -> & ->)].
      - destruct H1 as [[-> ->] | (Hc & -> & ->)]; [now left|].
        right. exists q. auto.
      - right. exists q'. auto. }
    destruct (pattern q s) eqn:Hm; [|apply Hgo; now left].
    pose proof (Hsp q (or_introl eq_refl) Hm) as Hq.
    unfold special in Hq.
    apply orb_false_iff in Hq. destruct Hq as [Hq Hd].
    apply orb_false_iff in Hq. destruct Hq as [Hma Hti].
    rewrite Hma, Hti, Hd.
    destruct (truthy (response q)) eqn:Hr; [|apply Hgo; now left].
    destruct (Qgtb (weight q) bc0); [|apply Hgo; now left].
    apply Hgo. right. repeat split.
    unfold candidate, special. now rewrite Hm, Hma, Hti, Hd, Hr.
Qed.


(** The loop stops at the first matching pattern of category math, if
    the extraction of the expression finds something. *)
Lemma scan_math (pre post : list pattern_info) (p : pattern_info) (s m : str)
    (best_match : option str) (best_confidence : Q) :
  (forall q, In q pre -> pattern q s = true -> special q = false) ->
  category p = u "math" ->
  pattern p s = true ->
  math_search s = Some m ->
  scan eval env (pre ++ p :: post) s best_match best_confidence
  = (handle_math eval m, weight p).
Proof.
  intros Hpre Hcat Hm Hs.
  destruct (@scan_prefix pre (p :: post) s best_match best_confidence Hpre)
    as (bm & bc & -> & _).
  simpl. rewrite Hm, Hcat, Hs. reflexivity.
Qed.




(** *** The claims about [find_best_response] *)


(** With the default seed the math pattern comes first and weighs 2; a
    match of it always leaves an expression to extract. *)
Lemma seed_math_short_circuits (db : database) (input : str) :
  patterns_table db = [] ->
  Re.search Re.math_regex (lower (strip input)) = true ->
  exists m,
    math_search (lower (strip input)) = Some m
    /\ find_best_response lower eval (fst (init db)) env input
       = (handle_math eval m, 2%Q).
Proof.
  intros Hdb Hm.
  destruct (math_search_finds _ Hm) as [m Hs].
  exists m. split; [exact Hs|].
  assert (Hp : patterns (fst (init db))
               = [] ++ compile_row (nth 4 initial_patterns (ping_row ""))
                    :: map compile_row (tl (order_by_weight_desc initial_patterns))).
  { unfold init, init_database, is_database_empty, load_responses,
      load_initial_patterns.
    rewrite Hdb. reflexivity. }
  unfold find_best_response. rewrite Hp.
  apply scan_math; auto.
  intros q [].
Qed.


End Scan.



(** What the extraction finds need not be the arithmetic part of the
    input: in ["what is 5 + 3 * 2?"] the first run of characters of the
    class is the blank after the first word. *)
Lemma extraction_stops_at_first_blank :
  math_search (ascii_lower (strip (u "what is 5 + 3 * 2?"))) = Some (u " ")
  /\ find_best_response ascii_lower reference_eval
       (fst (init new_database)) fair_weather (u "what is 5 + 3 * 2?")
     = (u "I can only handle basic math with +, -, *, / and parentheses.", 2%Q).
Proof. split; reflexivity. Qed.



End MatcherProperties.

(* ================================================================= *)
(** ** Properties of [get_response] and of the statistics *)

Module SessionProperties.
Import PyStr PyNum Chatbot.
Local Open Scope string_scope.
Local Open Scope list_scope.

(** *** Slices *)

Lemma last_n_all {A} (n : nat) (l : list A) :
  List.length l <= n -> last_n n l = l.
Proof.
  intros H. unfold last_n.
  replace (List.length l - n) with 0 by lia. reflexivity.
Qed.

Lemma last_n_length {A} (n : nat) (l : list A) :
  List.length (last_n n l) = Nat.min n (List.length l).
Proof. unfold last_n. rewrite length_skipn. lia. Qed.

(** Keeping the last [n] items before an append changes nothing to the
    last [n] items after it. *)
Lemma last_n_app_last_n {A} (n : nat) (l1 l2 : list A) :
  last_n n (last_n n l1 ++ l2) = last_n n (l1 ++ l2).
Proof.
  unfold last_n. rewrite !length_app, length_skipn.
  rewrite !skipn_app, skipn_skipn, length_skipn.
  destruct (Nat.le_gt_cases (List.length l1) n) as [H|H].
  - replace (List.length l1 - n) with 0 by lia. simpl skipn at 1.
    rewrite Nat.sub_0_r, Nat.add_0_r. reflexivity.
  - replace (List.length l1 - (List.length l1 - n) + List.length l2 - n)
      with (List.length l2) by lia.
    replace (List.length l2 + (List.length l1 - n))
      with (List.length l1 + List.length l2 - n) by lia.
    f_equal. f_equal. lia.
Qed.

Section Session.

Variable lower : str -> str.
Variable eval : str -> eval_result.

(** The ring after an append: the test on the length changes nothing to
    [history[-20:]]. *)
Lemma ring_last_n (h : list (str * str)) :
  (if Nat.ltb 20 (List.length h) then last_n 20 h else h) = last_n 20 h.
Proof.
  destruct (Nat.ltb 20 (List.length h)) eqn:E; [reflexivity|].
  apply Nat.ltb_ge in E. symmetry. now apply last_n_all.
Qed.

(** *** [get_response], branch by branch *)

Lemma get_response_empty (self : SimpleChatbot) (db : database)
    (env : environment) (message : str) :
  route_of lower message = Empty ->
  get_response_try lower eval self db env message
  = Returned (u "Please say something! I'm here to chat with you.", self, db).
Proof.
  unfold route_of, get_response_try.
  destruct (negb (truthy message) || negb (truthy (strip message)));
    [reflexivity|].
  destruct (contains (u "conversation history") (lower message)
            || contains (u "chat history") (lower message)); [discriminate|].
  destruct (contains (u "clear history") (lower message)); [discriminate|].
  destruct (contains (u "stats") (lower message)
            || contains (u "statistics") (lower message)); discriminate.
Qed.

Lemma get_response_history (self : SimpleChatbot) (db : database)
    (env : environment) (message : str) :
  route_of lower message = History ->
  get_response_try lower eval self db env message
  = Returned
      (if Nat.eqb (List.length (conversation_history self)) 0
       then u "We haven't chatted yet! This is our first conversation."
       else render_history (last_n 3 (conversation_history self)),
       self, db).
Proof.
  unfold route_of, get_response_try.
  destruct (negb (truthy message) || negb (truthy (strip message)));
    [discriminate|].
  destruct (contains (u "conversation history") (lower message)
            || contains (u "chat history") (lower message)).
  - intros _. now destruct (Nat.eqb _ 0).
  - destruct (contains (u "clear history") (lower message)); [discriminate|].
    destruct (contains (u "stats") (lower message)
              || contains (u "statistics") (lower message)); discriminate.
Qed.

Lemma get_response_clear (self : SimpleChatbot) (db : database)
    (env : environment) (message : str) :
  route_of lower message = Clear ->
  get_response_try lower eval self db env message
  = Returned (u "Conversation history cleared! Starting fresh.",
              set_history self [], db).
Proof.
  unfold route_of, get_response_try.
  destruct (negb (truthy message) || negb (truthy (strip message)));
    [discriminate|].
  destruct (contains (u "conversation history") (lower message)
            || contains (u "chat history") (lower message)); [discriminate|].
  destruct (contains (u "clear history") (lower message)); [reflexivity|].
  destruct (contains (u "stats") (lower message)
            || contains (u "statistics") (lower message)); discriminate.
Qed.

Lemma get_response_stats (self : SimpleChatbot) (db : database)
    (env : environment) (message : str) :
  route_of lower message = Stats ->
  get_response_try lower eval self db env message
  = bind (get_conversation_stats db env)
         (fun s => Returned (render_stats s, self, db)).
Proof.
  unfold route_of, get_response_try.
  destruct (negb (truthy message) || negb (truthy (strip message)));
    [discriminate|].
  destruct (contains (u "conversation history") (lower message)
            || contains (u "chat history") (lower message)); [discriminate|].
  destruct (contains (u "clear history") (lower message)); [discriminate|].
  destruct (contains (u "stats") (lower message)
            || contains (u "statistics") (lower message));
    [reflexivity | discriminate].
Qed.

Lemma get_response_chat_try (self : SimpleChatbot) (db : database)
    (env : environment) (message : str) :
  route_of lower message = Chat ->
  get_response_try lower eval self db env message
  = bind (learn_from_conversation db env message
            (fst (find_best_response lower eval self env message))
            (snd (find_best_response lower eval self env message)))
         (fun db' =>
            Returned
              (fst (find_best_response lower eval self env message),
               set_history self
                 (last_n 20
                    (conversation_history self
                     ++ [(message,
                          fst (find_best_response lower eval self env message))])),
               db')).
Proof.
  unfold route_of, get_response_try.
  destruct (negb (truthy message) || negb (truthy (strip message)));
    [discriminate|].
  destruct (contains (u "conversation history") (lower message)
            || contains (u "chat history") (lower message)); [discriminate|].
  destruct (contains (u "clear history") (lower message)); [discriminate|].
  destruct (contains (u "stats") (lower message)
            || contains (u "statistics") (lower message)); [discriminate|].
  intros _.
  destruct (find_best_response lower eval self env message) as [response conf].
  simpl fst. simpl snd.
  destruct (learn_from_conversation db env message response conf); simpl;
    [|reflexivity].
  now rewrite ring_last_n.
Qed.

(** Only the store makes the [try] block fail, and it fails before the
    instance is touched. *)
Lemma try_fails_on_storage (self : SimpleChatbot) (db : database)
    (env : environment) (message msg : str) :
  get_response_try lower eval self db env message = Failed msg ->
  storage_error env = Some msg.
Proof.
  destruct (route_of lower message) eqn:R.
  - rewrite (get_response_empty _ _ _ _ R). discriminate.
  - rewrite (get_response_history _ _ _ _ R). discriminate.
  - rewrite (get_response_clear _ _ _ _ R). discriminate.
  - rewrite (get_response_stats _ _ _ _ R).
    unfold get_conversation_stats.
    destruct (storage_error env); simpl; [congruence | discriminate].
  - rewrite (get_response_chat_try _ _ _ _ R).
    unfold learn_from_conversation.
    destruct (storage_error env); simpl; [congruence | discriminate].
Qed.

(** *** The claims about [get_response] *)

(** C1: [get_response] returns a string for every message, in every
    environment.  When something fails inside the [try] block, the reply
    is the error template around the message of the exception, and the
    instance and the database are as they were before the call, so that
    the calls that follow are not affected. *)
Theorem get_response_never_raises (self : SimpleChatbot) (db : database)
    (env : environment) (message : str) :
  exists (reply : str) (self' : SimpleChatbot) (db' : database),
    get_response lower eval self db env message = (reply, self', db')
    /\ (forall msg,
          get_response_try lower eval self db env message = Failed msg ->
          reply = u "I encountered an error: " ++ msg
                    ++ u ". Please try rephrasing your message."
          /\ storage_error env = Some msg
          /\ self' = self /\ db' = db
          /\ forall env' message',
               get_response lower eval self' db' env' message'
               = get_response lower eval self db env' message')
    /\ (forall r,
          get_response_try lower eval self db env message = Returned r ->
          r = (reply, self', db')).
Proof.
  unfold get_response.
  destruct (get_response_try lower eval self db env message)
    as [[[reply self'] db']|msg] eqn:T.
  - exists reply, self', db'. split; [reflexivity|].
    split; [discriminate|]. intros r H. now inversion H.
  - eexists _, self, db. split; [reflexivity|].
    split; [|discriminate].
    intros msg' H. inversion H; subst msg'.
    repeat split. now apply try_fails_on_storage in T.
Qed.

(** C10: a message that reaches the matcher, in an environment where the
    store works, gets a non-empty reply, and exactly one row is appended
    to table [conversations]: the message as it was received, the reply
    as it is returned, and the confidence that the matcher returned. *)
Theorem chat_appends_one_exchange (self : SimpleChatbot) (db : database)
    (env : environment) (message : str) :
  route_of lower message = Chat ->
  storage_error env = None ->
  exists (reply : str) (conf : Q) (self' : SimpleChatbot) (db' : database),
    get_response lower eval self db env message = (reply, self', db')
    /\ find_best_response lower eval self env message = (reply, conf)
    /\ reply <> []
    /\ conversations db'
       = conversations db
         ++ [ {| user_input := message;
                 bot_response := reply;
                 confidence := conf |} ]
    /\ patterns_table db' = patterns_table db.
Proof.
  intros R Hs. unfold get_response.
  rewrite (get_response_chat_try _ _ _ _ R).
  unfold learn_from_conversation. rewrite Hs. simpl bind.
  pose proof (MatcherProperties.scan_nonempty eval env (patterns self)
                (lower (strip message)) None 0%Q) as Hne.
  fold (find_best_response lower eval self env message) in Hne.
  destruct (find_best_response lower eval self env message) as [reply conf].
  simpl fst in *. simpl snd.
  eexists reply, conf, _, _. repeat split. exact Hne.
Qed.

(** *** The history ring *)

Lemma step_history_chat (st : session) (c : call) :
  chats lower c ->
  conversation_history (fst (step lower eval st c))
  = last_n 20 (conversation_history (fst st)
               ++ [(snd c, reply lower eval st c)]).
Proof.
  intros [R Hs]. unfold step, reply, get_response.
  rewrite (get_response_chat_try _ _ _ _ R).
  unfold learn_from_conversation. rewrite Hs. reflexivity.
Qed.

Lemma step_history_command (st : session) (c : call) :
  route_of lower (snd c) <> Chat ->
  conversation_history (fst (step lower eval st c))
  = match route_of lower (snd c) with
    | Clear => []
    | _ => conversation_history (fst st)
    end.
Proof.
  intros Hr. unfold step, get_response.
  destruct (route_of lower (snd c)) eqn:R.
  - now rewrite (get_response_empty _ _ _ _ R).
  - now rewrite (get_response_history _ _ _ _ R).
  - now rewrite (get_response_clear _ _ _ _ R).
  - rewrite (get_response_stats _ _ _ _ R).
    now destruct (get_conversation_stats (snd st) (fst c)).
  - now elim Hr.
Qed.

Lemma step_history_bounded (st : session) (c : call) :
  List.length (conversation_history (fst st)) <= 20 ->
  List.length (conversation_history (fst (step lower eval st c))) <= 20.
Proof.
  intros H.
  destruct (route_of lower (snd c)) eqn:R;
    try (rewrite step_history_command by (rewrite R; discriminate);
         rewrite R; simpl; lia).
  unfold step, get_response.
  rewrite (get_response_chat_try _ _ _ _ R).
  destruct (learn_from_conversation _ _ _ _ _); simpl; [|exact H].
  rewrite last_n_length. lia.
Qed.

Lemma run_history_bounded (calls : list call) (st : session) :
  List.length (conversation_history (fst st)) <= 20 ->
  List.length (conversation_history (fst (run lower eval st calls))) <= 20.
Proof.
  revert st. induction calls as [|c calls IH]; intros st H; [exact H|].
  apply IH. now apply step_history_bounded.
Qed.

Lemma run_history_fifo (calls : list call) (st : session) :
  List.length (conversation_history (fst st)) <= 20 ->
  Forall (chats lower) calls ->
  conversation_history (fst (run lower eval st calls))
  = last_n 20 (conversation_history (fst st)
               ++ transcript lower eval st calls).
Proof.
  revert st. induction calls as [|c calls IH]; intros st Hb Hc.
  - simpl. rewrite app_nil_r. symmetry. now apply last_n_all.
  - inversion Hc as [|c' l Hc1 Hc2]; subst.
    change (run lower eval st (c :: calls))
      with (run lower eval (step lower eval st c) calls).
    rewrite (IH _ (step_history_bounded _ c Hb) Hc2).
    rewrite (step_history_chat _ Hc1), last_n_app_last_n.
    now rewrite <- app_assoc.
Qed.

Lemma transcript_length (calls : list call) (st : session) :
  List.length (transcript lower eval st calls) = List.length calls.
Proof.
  revert st. induction calls as [|c calls IH]; intros st; simpl; auto.
Qed.

(** C4: from a new instance on, the history holds at most 20 pairs after
    every call.  After calls that all reach the matcher and are logged,
    it holds the last 20 (input, response) pairs in the order of the
    calls; after 21 of them, all pairs but the first.  A call that does
    not reach the matcher leaves the history as it was, except the clear
    command, which empties it. *)
Theorem history_ring_bounded_fifo :
  (forall (db : database) (calls : list call),
     List.length (conversation_history (fst (run lower eval (init db) calls))) <= 20)
  /\ (forall (db : database) (calls : list call),
       Forall (chats lower) calls ->
       conversation_history (fst (run lower eval (init db) calls))
       = last_n 20 (transcript lower eval (init db) calls))
  /\ (forall (db : database) (calls : list call),
       Forall (chats lower) calls ->
       List.length calls = 21 ->
       conversation_history (fst (run lower eval (init db) calls))
       = skipn 1 (transcript lower eval (init db) calls)
       /\ List.length
            (conversation_history (fst (run lower eval (init db) calls))) = 20)
  /\ (forall (st : session) (c : call),
       route_of lower (snd c) <> Chat ->
       conversation_history (fst (step lower eval st c))
       = match route_of lower (snd c) with
         | Clear => []
         | _ => conversation_history (fst st)
         end).
Proof.
  split; [|split; [|split]].
  - intros db calls. apply run_history_bounded. simpl. lia.
  - intros db calls Hc.
    rewrite run_history_fifo; [reflexivity | simpl; lia | exact Hc].
  - intros db calls Hc Hn.
    rewrite run_history_fifo; [|simpl; lia | exact Hc].
    change (conversation_history (fst (init db))) with (@nil (str * str)).
    simpl app.
    pose proof (transcript_length calls (init db)) as Hl.
    unfold last_n. rewrite Hl, Hn. simpl Nat.sub.
    split; [reflexivity|].
    rewrite length_skipn, Hl, Hn. reflexivity.
  - intros st c Hr. now apply step_history_command.
Qed.

End Session.

(** Twenty-one numbered notes in a row: the first one is gone, the other
    twenty are there in order. *)
Lemma history_ring_bounded_fifo_witness :
  Forall (chats ascii_lower)
         (map (fun n => (fair_weather, u "note " ++ str_of_nat n)) (seq 1 21))
  /\ map fst
       (conversation_history
          (fst (run ascii_lower reference_eval (init new_database)
                  (map (fun n => (fair_weather, u "note " ++ str_of_nat n))
                       (seq 1 21)))))
     = map (fun n => u "note " ++ str_of_nat n) (seq 2 20).
Proof.
  assert (H : Forall (chats ascii_lower)
                (map (fun n => (fair_weather, u "note " ++ str_of_nat n))
                     (seq 1 21))).
  { repeat constructor. }
  split; [exact H|].
  rewrite (proj1 (proj1 (proj2 (proj2
             (history_ring_bounded_fifo ascii_lower reference_eval)))
             new_database _ H eq_refl)).
  vm_compute. reflexivity.
Defined.

Lemma get_response_never_raises_witness :
  get_response ascii_lower reference_eval (fst (init new_database))
    (snd (init new_database)) locked (u "hello")
  = (u "I encountered an error: database is locked. Please try rephrasing your message.",
     fst (init new_database), snd (init new_database)).
Proof.
  destruct (get_response_never_raises ascii_lower reference_eval
              (fst (init new_database)) (snd (init new_database))
              locked (u "hello")) as (reply & self' & db' & E & Hf & _).
  rewrite E.
  destruct (Hf (u "database is locked") eq_refl) as (-> & _ & -> & -> & _).
  reflexivity.
Defined.

Lemma chat_appends_one_exchange_witness :
  route_of ascii_lower (u "Hello there") = Chat
  /\ storage_error fair_weather = None
  /\ exists self' db',
       get_response ascii_lower reference_eval (fst (init new_database))
         (snd (init new_database)) fair_weather (u "Hello there")
       = (u "Hello! How can I help you today?", self', db')
       /\ conversations db'
          = [ {| user_input := u "Hello there";
                 bot_response := u "Hello! How can I help you today?";
                 confidence := 1 |} ].
Proof.
  split; [reflexivity|]. split; [reflexivity|].
  destruct (@chat_appends_one_exchange ascii_lower reference_eval
              (fst (init new_database)) (snd (init new_database))
              fair_weather (u "Hello there") eq_refl eq_refl)
    as (reply & conf & self' & db' & E & F & _ & Hc & _).
  exists self', db'.
  assert (Hr : (reply, conf) = (u "Hello! How can I help you today?", 1%Q))
    by (rewrite <- F; reflexivity).
  inversion Hr; subst reply conf.
  split; [exact E | exact Hc].
Defined.

(** *** The statistics *)





(** [COUNT(DISTINCT ...)] keeps one copy of each value. *)
Lemma distinct_values_spec (values seen : list str) :
  NoDup seen ->
  NoDup (distinct_values seen values)
  /\ forall x, In x (distinct_values seen values) <-> In x seen \/ In x values.
Proof.
  revert seen. induction values as [|v values IH]; intros seen Hnd; simpl.
  - split; [exact Hnd | tauto].
  - destruct (existsb (str_eqb v) seen) eqn:E.
    + destruct (IH seen Hnd) as [H1 H2]. split; [exact H1|].
      intros x. rewrite H2.
      apply existsb_exists in E. destruct E as (y & Hy & Heq).
      apply MatcherProperties.str_eqb_eq in Heq. subst y.
      split; [tauto|]. intros [H|[H|H]]; subst; tauto.
    + assert (Hv : ~ In v seen).
      { intros Hin.
        assert (existsb (str_eqb v) seen = true); [|congruence].
        apply existsb_exists. exists v. split; [exact Hin|].
        now apply MatcherProperties.str_eqb_eq. }
      assert (Hnd' : NoDup (seen ++ [v])).
      { apply NoDup_app; [exact Hnd | repeat constructor; auto |].
        intros x Hx [<-|[]]. contradiction. }
      destruct (IH _ Hnd') as [H1 H2]. split; [exact H1|].
      intros x. rewrite H2, in_app_iff. simpl. tauto.
Qed.



End SessionProperties.

(* ================================================================= *)
(** ** More on [handle_math] *)

Module CleaningProperties.
Import PyStr PyNum Chatbot Notions.
Local Open Scope string_scope.
Local Open Scope list_scope.

(** No whitespace character is a digit, an operator, a parenthesis or a
    dot. *)
Lemma space_not_math (c : char) :
  isspace c = true -> is_math_char c = false.
Proof.
  intros H. unfold isspace in H.
  apply existsb_exists in H. destruct H as (x & Hin & Heq).
  apply N.eqb_eq in Heq. subst x.
  assert (Hall : forallb (fun x => negb (is_math_char x)) whitespace = true)
    by (vm_compute; reflexivity).
  rewrite forallb_forall in Hall.
  now apply negb_true_iff, Hall.
Qed.

(** The two substitutions of [handle_math] together keep the characters
    of the class [[\d+\-*/().]] and nothing else. *)
Lemma clean_filter (expression : str) :
  clean expression = filter is_math_char expression.
Proof.
  unfold clean. induction expression as [|c e IH]; [reflexivity|].
  simpl. destruct (is_math_char c) eqn:M; simpl.
  - destruct (isspace c) eqn:S.
    + apply space_not_math in S. congruence.
    + simpl. now rewrite IH.
  - destruct (isspace c) eqn:S; simpl; [rewrite S; simpl|]; exact IH.
Qed.

Lemma clean_idempotent (expression : str) :
  clean (clean expression) = clean expression.
Proof.
  rewrite !clean_filter.
  induction expression as [|c e IH]; [reflexivity|].
  simpl. destruct (is_math_char c) eqn:M; [|exact IH].
  simpl. now rewrite M, IH.
Qed.

(** The reply of [handle_math] is a function of the digits, operators,
    parentheses and dots of the expression, in their order: letters,
    blanks and any other character in between make no difference. *)
Theorem handle_math_reads_math_chars (eval : str -> eval_result)
    (e1 e2 : str) :
  filter is_math_char e1 = filter is_math_char e2 ->
  handle_math eval e1 = handle_math eval e2.
Proof.
  intros H. unfold handle_math. now rewrite !clean_filter, H.
Qed.

Lemma handle_math_reads_math_chars_witness :
  filter is_math_char (u "2 plus 2") = filter is_math_char (u "22")
  /\ handle_math reference_eval (u "2 plus 2") = u "The answer is: 22".
Proof.
  split; [reflexivity|].
  rewrite (@handle_math_reads_math_chars reference_eval
             (u "2 plus 2") (u "22") eq_refl).
  reflexivity.
Defined.

Lemma filter_none (expression : str) :
  forallb (fun c => negb (is_math_char c)) expression = true ->
  filter is_math_char expression = [].
Proof.
  induction expression as [|x e IH]; [reflexivity|].
  simpl. intros H. apply andb_prop in H. destruct H as [Hx He].
  apply negb_true_iff in Hx. rewrite Hx. now apply IH.
Qed.

(** Without a character of the class nothing is evaluated. *)
Lemma handle_math_without_math_char (eval : str -> eval_result)
    (expression : str) :
  forallb (fun c => negb (is_math_char c)) expression = true ->
  handle_math eval expression = whitelist_message.
Proof.
  intros H. unfold handle_math.
  now rewrite clean_filter, (filter_none _ H).
Qed.



End CleaningProperties.

(* ================================================================= *)
(** ** More on [find_best_response] *)

Module MatchingProperties.
Import PyStr PyNum Chatbot Notions.
Local Open Scope string_scope.
Local Open Scope list_scope.

(** *** A pattern that matches the empty string matches everywhere *)

Lemma holding_nullable (k r : Re.regex) :
  Re.nullable k = true -> holding k r -> Re.nullable r = true.
Proof.
  intros Hk H. induction H as [|r x _ IH]; simpl.
  - exact Hk.
  - now rewrite IH.
Qed.

Lemma holding_alt (k a b : Re.regex) :
  holding k a -> holding k (Re.alt a b).
Proof.
  intros H. destruct H; destruct b; simpl; try (now repeat constructor).
Qed.

Lemma holding_deriv (k r : Re.regex) (c : char) :
  Re.nullable k = true -> holding k r -> holding k (Re.deriv c r).
Proof.
  intros Hk H. induction H as [|r x H IH].
  - change (Re.deriv c (Re.Cat Re.anything k))
      with (Re.alt (Re.cat Re.anything k) (Re.deriv c k)).
    apply holding_alt.
    destruct k; try discriminate Hk; constructor.
  - change (Re.deriv c (Re.Alt r x))
      with (Re.alt (Re.deriv c r) (Re.deriv c x)).
    now apply holding_alt.
Qed.

Lemma search_nullable (r : Re.regex) (s : str) :
  Re.nullable r = true -> Re.search r s = true.
Proof.
  intros Hr. unfold Re.search, Re.fullmatch.
  assert (Hk : Re.nullable (Re.Cat r Re.anything) = true)
    by (simpl; now rewrite Hr).
  assert (H : forall x, holding (Re.Cat r Re.anything) x ->
            Re.nullable (fold_left (fun r' c => Re.deriv c r') s x) = true).
  { induction s as [|c s IH]; intros x Hx; simpl.
    - now apply (holding_nullable Hk).
    - apply IH. now apply holding_deriv. }
  apply H. constructor.
Qed.

(** *** The two ways out of the loop *)

Section Outcome.

Variable lower : str -> str.
Variable eval : str -> eval_result.
Variable env : environment.

Lemma special_not_candidate (p : pattern_info) (s : str) :
  special p = true -> candidate p s = false.
Proof.
  intros H. unfold candidate. rewrite H. simpl.
  now rewrite andb_false_r.
Qed.

(** The loop either returns at a matching pattern of a special category,
    or runs to the end with the best candidate it has met: its
    confidence is at least the initial one and the weight of every
    candidate of the list. *)
Lemma scan_outcome (ps : list pattern_info) (s : str)
    (best_match : option str) (best_confidence : Q) :
  (exists p, In p ps /\ pattern p s = true /\ special p = true
             /\ snd (scan eval env ps s best_match best_confidence) = weight p
             /\ (fst (scan eval env ps s best_match best_confidence)
                   = handle_time_query env
                 \/ fst (scan eval env ps s best_match best_confidence)
                    = handle_date_query env
                 \/ exists m,
                      fst (scan eval env ps s best_match best_confidence)
                      = handle_math eval m))
  \/ (exists bm bc,
        scan eval env ps s best_match best_confidence
        = (best_or_default bm, bc)
        /\ ((bm = best_match /\ bc = best_confidence)
            \/ exists q, In q ps /\ candidate q s = true
                         /\ bm = Some (response q) /\ bc = weight q)
        /\ (best_confidence <= bc)%Q
        /\ forall q, In q ps -> candidate q s = true -> (weight q <= bc)%Q).
Proof.
  revert best_match best_confidence.
  induction ps as [|p ps IH]; intros bm0 bc0.
  - right. exists bm0, bc0. simpl. repeat split; auto.
    + apply Qle_refl.
    + intros q [].
  - assert (Hskip : candidate p s = false ->
              scan eval env (p :: ps) s bm0 bc0 = scan eval env ps s bm0 bc0 ->
              (exists p', In p' (p :: ps) /\ pattern p' s = true /\ special p' = true
                 /\ snd (scan eval env (p :: ps) s bm0 bc0) = weight p'
                 /\ (fst (scan eval env (p :: ps) s bm0 bc0) = handle_time_query env
                     \/ fst (scan eval env (p :: ps) s bm0 bc0) = handle_date_query env
                     \/ exists m, fst (scan eval env (p :: ps) s bm0 bc0)
                                  = handle_math eval m))
              \/ (exists bm bc,
                    scan eval env (p :: ps) s bm0 bc0 = (best_or_default bm, bc)
                    /\ ((bm = bm0 /\ bc = bc0)
                        \/ exists q, In q (p :: ps) /\ candidate q s = true
                                     /\ bm = Some (response q) /\ bc = weight q)
                    /\ (bc0 <= bc)%Q
                    /\ forall q, In q (p :: ps) -> candidate q s = true ->
                                  (weight q <= bc)%Q)).
    { intros Hc E. rewrite E.
      destruct (IH bm0 bc0) as [(p' & Hin & H)|(bm & bc & E' & Hb & Hle & Hall)].
      - left. exists p'. split; [now right | exact H].
      - right. exists bm, bc. split; [exact E'|]. split; [|split; [exact Hle|]].
        + destruct Hb as [Hb|(q & Hin & Hq)]; [now left|].
          right. exists q. split; [now right | exact Hq].
        + intros q [<-|Hin] Hq; [congruence | now apply Hall]. }
    simpl scan in *.
    destruct (pattern p s) eqn:Hm;
      [|apply Hskip; [unfold candidate; now rewrite Hm | reflexivity]].
    destruct (str_eqb (category p) (u "math")) eqn:Hma.
    { assert (Hsp : special p = true) by (unfold special; now rewrite Hma).
      destruct (math_search s) as [m|];
        [|apply Hskip; [now apply special_not_candidate | reflexivity]].
      left. exists p. simpl. repeat split; auto. right. right. now exists m. }
    destruct (str_eqb (category p) (u "time")) eqn:Hti.
    { left. exists p. simpl. repeat split; auto.
      unfold special. now rewrite Hma, Hti. }
    destruct (str_eqb (category p) (u "date")) eqn:Hda.
    { left. exists p. simpl. repeat split; auto.
      unfold special. rewrite Hma, Hti, Hda. reflexivity. }
    destruct (truthy (response p)) eqn:Hr;
      [|apply Hskip; [unfold candidate; rewrite Hr; apply andb_false_r
                     | reflexivity]].
    assert (Hc : candidate p s = true)
      by (unfold candidate, special; now rewrite Hm, Hma, Hti, Hda, Hr).
    destruct (Qgtb (weight p) bc0) eqn:Hg.
    + apply MatcherProperties.Qgtb_true in Hg.
      destruct (IH (Some (response p)) (weight p))
        as [(p' & Hin & H)|(bm & bc & E' & Hb & Hle & Hall)].
      * left. exists p'. split; [now right | exact H].
      * right. exists bm, bc. split; [exact E'|]. split; [|split].
        -- right. destruct Hb as [[-> ->]|(q & Hin & Hq)].
           ++ exists p. split; [now left | auto].
           ++ exists q. split; [now right | exact Hq].
        -- apply Qle_trans with (weight p); [now apply Qlt_le_weak | exact Hle].
        -- intros q [<-|Hin] Hq; [exact Hle | now apply Hall].
    + apply MatcherProperties.Qgtb_false in Hg.
      destruct (IH bm0 bc0)
        as [(p' & Hin & H)|(bm & bc & E' & Hb & Hle & Hall)].
      * left. exists p'. split; [now right | exact H].
      * right. exists bm, bc. split; [exact E'|]. split; [|split; [exact Hle|]].
        -- destruct Hb as [Hb|(q & Hin & Hq)]; [now left|].
           right. exists q. split; [now right | exact Hq].
        -- intros q [<-|Hin] Hq; [|now apply Hall].
           now apply Qle_trans with bc0.
Qed.

(** The confidence that [find_best_response] returns is never made up:
    it is 0.0, or the weight of a pattern of [self.patterns] that matches
    the normalized input; and the reply is never the empty string. *)
Theorem confidence_is_a_matching_weight (self : SimpleChatbot) (input : str) :
  fst (find_best_response lower eval self env input) <> []
  /\ (snd (find_best_response lower eval self env input) = 0%Q
      \/ exists p, In p (patterns self)
                   /\ pattern p (lower (strip input)) = true
                   /\ snd (find_best_response lower eval self env input)
                      = weight p).
Proof.
  unfold find_best_response. split.
  - apply MatcherProperties.scan_nonempty.
  - destruct (scan_outcome (patterns self) (lower (strip input)) None 0)
      as [(p & Hin & Hm & _ & Hw & _)|(bm & bc & E & Hb & _)].
    + right. now exists p.
    + rewrite E. simpl.
      destruct Hb as [[_ ->]|(q & Hin & Hq & _ & ->)]; [now left|].
      right. exists q. repeat split; auto.
      unfold candidate in Hq. apply andb_prop in Hq. destruct Hq as [Hq _].
      apply andb_prop in Hq. now destruct Hq.
Qed.

(** *** The default seed *)

Lemma seed_patterns (db : database) :
  patterns_table db = [] ->
  patterns (fst (init db))
  = map compile_row (order_by_weight_desc initial_patterns).
Proof.
  intros Hdb.
  unfold init, init_database, is_database_empty, load_responses,
    load_initial_patterns.
  rewrite Hdb. reflexivity.
Qed.

Lemma seed_weights_and_texts (p : pattern_info) :
  In p (map compile_row (order_by_weight_desc initial_patterns)) ->
  (weight p = (1 # 10)%Q \/ weight p = 1%Q \/ weight p = 2%Q)
  /\ response p <> last_resort.
Proof.
  intros Hin. rewrite MatcherProperties.seed_load_order in Hin.
  apply in_map_iff in Hin. destruct Hin as (r & <- & Hin).
  apply in_map_iff in Hin. destruct Hin as (n & <- & Hn).
  cbv [In] in Hn.
  repeat (destruct Hn as [<-|Hn];
          [split; [vm_compute; auto | intros E; vm_compute in E; discriminate E]|]).
  destruct Hn.
Qed.

(** The catch-all pattern [.*] of the seed is a candidate on every
    input. *)
Lemma seed_catch_all (s : str) :
  exists q,
    In q (map compile_row (order_by_weight_desc initial_patterns))
    /\ candidate q s = true /\ weight q = (1 # 10)%Q.
Proof.
  exists (compile_row (nth 12 initial_patterns (ping_row ""))).
  split; [|split; [|reflexivity]].
  - rewrite MatcherProperties.seed_load_order.
    apply in_map, in_map_iff. exists 12%nat. split; [reflexivity|].
    cbv [In]. tauto.
  - change (candidate (compile_row (nth 12 initial_patterns (ping_row ""))) s)
      with (Re.search (Re.Star Re.dot) s && true && true).
    now rewrite search_nullable.
Qed.

Lemma handle_math_not_last_resort (m : str) :
  handle_math eval m <> last_resort.
Proof.
  unfold handle_math.
  destruct (negb _); [discriminate|].
  destruct (eval _) as [v|[]]; [destruct (format_value v)|..]; discriminate.
Qed.

(** With the default seed every input gets an answer of the seed: the
    last-resort text ["I'm not sure how to respond to that."] is never
    returned, and the confidence is 0.1, 1.0 or 2.0, never 0.0. *)
Theorem seed_always_answers (db : database) (input : str) :
  patterns_table db = [] ->
  fst (find_best_response lower eval (fst (init db)) env input) <> last_resort
  /\ (snd (find_best_response lower eval (fst (init db)) env input) = (1 # 10)%Q
      \/ snd (find_best_response lower eval (fst (init db)) env input) = 1%Q
      \/ snd (find_best_response lower eval (fst (init db)) env input) = 2%Q).
Proof.
  intros Hdb. unfold find_best_response. rewrite (seed_patterns _ Hdb).
  set (s := lower (strip input)).
  set (ps := map compile_row (order_by_weight_desc initial_patterns)).
  destruct (scan_outcome ps s None 0)
    as [(p & Hin & _ & _ & Hw & Hr)|(bm & bc & E & Hb & _ & Hall)].
  - split.
    + destruct Hr as [-> | [-> | [m ->]]];
        [discriminate | discriminate | apply handle_math_not_last_resort].
    + rewrite Hw. now apply seed_weights_and_texts.
  - rewrite E. simpl.
    destruct (seed_catch_all s) as (q0 & Hq0 & Hc0 & Hw0).
    pose proof (Hall q0 Hq0 Hc0) as Hlow. rewrite Hw0 in Hlow.
    destruct Hb as [[_ ->]|(q & Hin & Hq & -> & ->)].
    + exfalso. revert Hlow. apply Qlt_not_le. reflexivity.
    + destruct (seed_weights_and_texts Hin) as [Hw Ht].
      split; [|exact Hw].
      unfold best_or_default.
      unfold candidate in Hq. apply andb_prop in Hq. destruct Hq as [_ Hq].
      now rewrite Hq.
Qed.

(** *** Time and date *)

(** When the loop reaches a matching pattern of category time or date
    (no pattern of a special category before it matches), the reply is
    the clock text, whatever else the input says, and the confidence is
    the weight of that pattern. *)
Theorem time_and_date_short_circuit (self : SimpleChatbot) (input : str)
    (pre post : list pattern_info) (p : pattern_info) :
  patterns self = pre ++ p :: post ->
  (forall q, In q pre ->
     pattern q (lower (strip input)) = true -> special q = false) ->
  pattern p (lower (strip input)) = true ->
  (category p = u "time" ->
   find_best_response lower eval self env input
   = (handle_time_query env, weight p))
  /\ (category p = u "date" ->
      find_best_response lower eval self env input
      = (handle_date_query env, weight p)).
Proof.
  intros Hps Hpre Hm. unfold find_best_response. rewrite Hps.
  destruct (@MatcherProperties.scan_prefix eval env pre (p :: post)
              (lower (strip input)) None 0%Q Hpre) as (bm & bc & -> & _).
  simpl. rewrite Hm.
  split; intros Hc; rewrite Hc; reflexivity.
Qed.

(** *** The blank in front of the expression *)

Lemma math_search_unfold (s : str) :
  math_search s
  = match dropwhile (fun c => negb (math_class c)) s with
    | [] => None
    | rest => Some (takewhile math_class rest)
    end.
Proof. reflexivity. Qed.

Lemma dropwhile_app_all (f : char -> bool) (a b : str) :
  forallb f a = true -> dropwhile f (a ++ b) = dropwhile f b.
Proof.
  induction a as [|c a IH]; simpl; [reflexivity|].
  intros H. apply andb_prop in H. destruct H as [Hc Ha].
  rewrite Hc. now apply IH.
Qed.

Lemma takewhile_app_all (f : char -> bool) (a b : str) :
  forallb f a = true ->
  match b with [] => True | c :: _ => f c = false end ->
  takewhile f (a ++ b) = a.
Proof.
  intros Ha Hb. induction a as [|c a IH]; simpl.
  - destruct b as [|c b]; [reflexivity|]. simpl. now rewrite Hb.
  - simpl in Ha. apply andb_prop in Ha. destruct Ha as [Hc Ha].
    rewrite Hc. now rewrite IH.
Qed.

(** If the first character of the class is a blank that is followed by
    a character outside the class, the extraction returns the blanks
    only. *)
Lemma math_search_blank (w sp rest : str) :
  forallb (fun c => negb (math_class c)) w = true ->
  sp <> [] ->
  forallb isspace sp = true ->
  match rest with [] => True | c :: _ => math_class c = false end ->
  math_search (w ++ sp ++ rest) = Some sp.
Proof.
  intros Hw Hne Hsp Hrest.
  assert (Hcl : forallb math_class sp = true).
  { apply forallb_forall. intros c Hin. rewrite forallb_forall in Hsp.
    unfold math_class. rewrite (Hsp c Hin). apply orb_true_r. }
  rewrite math_search_unfold, dropwhile_app_all by exact Hw.
  destruct sp as [|c sp]; [now elim Hne|].
  simpl in Hcl. apply andb_prop in Hcl. destruct Hcl as [Hc Hcl].
  simpl app. simpl dropwhile. rewrite Hc. simpl negb. cbv iota.
  f_equal.
  change (c :: sp ++ rest) with ((c :: sp) ++ rest).
  apply takewhile_app_all; [|exact Hrest].
  simpl. now rewrite Hc.
Qed.

(** A question such as ["what is 5 + 3 * 2?"] is not evaluated: when the
    normalized input starts with characters outside the class, then has
    blanks, then a character outside the class again, a matching math
    pattern hands the blanks to [handle_math], and the reply is the
    whitelist message. *)
Theorem blank_before_expression_hides_it (self : SimpleChatbot) (input : str)
    (pre post : list pattern_info) (p : pattern_info) (w sp rest : str) :
  patterns self = pre ++ p :: post ->
  (forall q, In q pre ->
     pattern q (lower (strip input)) = true -> special q = false) ->
  category p = u "math" ->
  pattern p (lower (strip input)) = true ->
  lower (strip input) = w ++ sp ++ rest ->
  forallb (fun c => negb (math_class c)) w = true ->
  sp <> [] ->
  forallb isspace sp = true ->
  match rest with [] => True | c :: _ => math_class c = false end ->
  find_best_response lower eval self env input
  = (whitelist_message, weight p).
Proof.
  intros Hps Hpre Hcat Hm Hs Hw Hne Hsp Hrest.
  unfold find_best_response. rewrite Hps.
  rewrite (@MatcherProperties.scan_math eval env pre post p
             (lower (strip input)) sp None 0%Q Hpre Hcat Hm).
  - f_equal. apply CleaningProperties.handle_math_without_math_char.
    apply forallb_forall. intros c Hin. rewrite forallb_forall in Hsp.
    apply negb_true_iff, CleaningProperties.space_not_math. now apply Hsp.
  - rewrite Hs. now apply math_search_blank.
Qed.

End Outcome.

Lemma seed_always_answers_witness :
  patterns_table new_database = []
  /\ find_best_response ascii_lower reference_eval
       (fst (init new_database)) fair_weather (u "xyzzy")
     = (u "I understand you're trying to tell me something, but I'm not quite sure how to respond. Could you try rephrasing?",
        (1 # 10)%Q)
  /\ fst (find_best_response ascii_lower reference_eval
            (fst (init new_database)) fair_weather (u "xyzzy"))
     <> last_resort.
Proof.
  split; [reflexivity|]. split; [reflexivity|].
  exact (proj1 (@seed_always_answers ascii_lower reference_eval fair_weather
                  new_database (u "xyzzy") eq_refl)).
Defined.

Lemma time_and_date_short_circuit_witness :
  pattern (compile_row (nth 5 initial_patterns (ping_row "")))
          (ascii_lower (strip (u "Hello, what time is it?"))) = true
  /\ find_best_response ascii_lower reference_eval
       (fst (init new_database)) fair_weather (u "Hello, what time is it?")
     = (u "The current time is 12:00:00 on Tuesday, November 03, 2026.", 2%Q).
Proof.
  split; [reflexivity|].
  assert (Hpre : forall q,
            In q [compile_row (nth 4 initial_patterns (ping_row ""))] ->
            pattern q (ascii_lower (strip (u "Hello, what time is it?"))) = true ->
            special q = false).
  { intros q [<-|[]] Hm. vm_compute in Hm. discriminate Hm. }
  exact (proj1 (@time_and_date_short_circuit ascii_lower reference_eval
                  fair_weather (fst (init new_database))
                  (u "Hello, what time is it?")
                  [compile_row (nth 4 initial_patterns (ping_row ""))]
                  (skipn 2 (patterns (fst (init new_database))))
                  (compile_row (nth 5 initial_patterns (ping_row "")))
                  eq_refl Hpre eq_refl) eq_refl).
Defined.

Lemma blank_before_expression_hides_it_witness :
  ascii_lower (strip (u "what is 5 + 3 * 2?"))
  = u "what" ++ u " " ++ u "is 5 + 3 * 2?"
  /\ find_best_response ascii_lower reference_eval
       (fst (init new_database)) fair_weather (u "what is 5 + 3 * 2?")
     = (whitelist_message, 2%Q).
Proof.
  split; [reflexivity|].
  apply (@blank_before_expression_hides_it ascii_lower reference_eval
           fair_weather (fst (init new_database)) (u "what is 5 + 3 * 2?")
           [] (tl (patterns (fst (init new_database))))
           (compile_row (nth 4 initial_patterns (ping_row "")))
           (u "what") (u " ") (u "is 5 + 3 * 2?"));
    try reflexivity.
  - intros q [].
  - discriminate.
Defined.

Lemma seed_math_comes_first_witness :
  patterns_table new_database = []
  /\ Re.search Re.math_regex
       (ascii_lower (strip (u "12 * 4 at what time today?"))) = true
  /\ exists m,
       math_search (ascii_lower (strip (u "12 * 4 at what time today?")))
       = Some m
       /\ find_best_response ascii_lower reference_eval
            (fst (init new_database)) fair_weather
            (u "12 * 4 at what time today?")
          = (handle_math reference_eval m, 2%Q).
Proof.
  split; [reflexivity|]. split; [reflexivity|].
  exact (@MatcherProperties.seed_math_short_circuits ascii_lower reference_eval
           fair_weather new_database (u "12 * 4 at what time today?")
           eq_refl eq_refl).
Defined.

End MatchingProperties.

(* ================================================================= *)
(** ** More on [get_response], the store and the callers *)

Module ConversationProperties.
Import PyStr PyNum Chatbot Callers Notions.
Local Open Scope string_scope.
Local Open Scope list_scope.

(** *** [str.strip] *)

Lemma dropwhile_head (f : char -> bool) (s : str) (c : char) (t : str) :
  dropwhile f s = c :: t -> f c = false.
Proof.
  induction s as [|x s IH]; simpl; [discriminate|].
  destruct (f x) eqn:E; [exact IH|].
  intros H. inversion H. now subst.
Qed.

Lemma dropwhile_suffix (f : char -> bool) (s : str) :
  exists a, s = a ++ dropwhile f s.
Proof.
  induction s as [|x s [a IH]]; simpl; [now exists []|].
  destruct (f x).
  - exists (x :: a). simpl. now f_equal.
  - now exists [].
Qed.

Lemma dropwhile_fixed (f : char -> bool) (s : str) :
  match s with [] => True | c :: _ => f c = false end ->
  dropwhile f s = s.
Proof.
  destruct s as [|c s]; [reflexivity|]. simpl. now intros ->.
Qed.

Lemma forallb_rev (f : char -> bool) (s : str) :
  forallb f (rev s) = forallb f s.
Proof.
  destruct (forallb f s) eqn:E.
  - apply forallb_forall. intros x Hin. apply in_rev in Hin.
    rewrite forallb_forall in E. now apply E.
  - apply not_true_is_false. intros H. rewrite forallb_forall in H.
    assert (forallb f s = true); [|congruence].
    apply forallb_forall. intros x Hin. apply H. now apply in_rev in Hin.
Qed.

(** [s.strip()] is empty exactly when [s] is made of whitespace. *)
Lemma strip_blank_iff (s : str) :
  strip s = [] <-> forallb isspace s = true.
Proof.
  unfold strip, rstrip, lstrip. split.
  - intros H.
    assert (Hd : dropwhile isspace (rev (dropwhile isspace s)) = []).
    { destruct (dropwhile isspace (rev (dropwhile isspace s))) as [|c t];
        [reflexivity|].
      simpl in H. now apply app_eq_nil in H as [_ H]. }
    apply MatcherProperties.dropwhile_nil in Hd. rewrite forallb_rev in Hd.
    destruct (dropwhile isspace s) as [|c t] eqn:E.
    + now apply MatcherProperties.dropwhile_nil.
    + apply dropwhile_head in E. simpl in Hd. rewrite E in Hd. discriminate.
  - intros H. now rewrite (MathProperties.dropwhile_all _ _ H).
Qed.

(** Stripping twice is stripping once. *)
Lemma strip_idempotent (s : str) : strip (strip s) = strip s.
Proof.
  unfold strip, rstrip, lstrip.
  set (l := dropwhile isspace s).
  destruct (dropwhile isspace (rev l)) as [|c d] eqn:D; [reflexivity|].
  pose proof (dropwhile_head _ _ D) as Hc.
  destruct (dropwhile_suffix isspace (rev l)) as [a Ha]. rewrite D in Ha.
  destruct l as [|h l'] eqn:L.
  { simpl in Ha. now destruct a. }
  assert (Hh : isspace h = false) by (apply (dropwhile_head isspace s L)).
  destruct (@exists_last _ (c :: d)) as (d' & z & Hz); [discriminate|].
  assert (z = h).
  { simpl in Ha. rewrite Hz, app_assoc in Ha.
    now apply app_inj_tail in Ha as [_ ->]. }
  subst z. rewrite Hz, rev_unit.
  rewrite (dropwhile_fixed isspace (h :: rev d')) by exact Hh.
  change (h :: rev d') with ([h] ++ rev d').
  rewrite rev_app_distr, rev_involutive. simpl rev. rewrite <- Hz.
  rewrite (dropwhile_fixed isspace (c :: d)) by exact Hc.
  rewrite Hz, rev_unit. reflexivity.
Qed.

(** *** Slices of slices *)

Lemma last_n_last_n {A} (m n : nat) (l : list A) :
  m <= n -> last_n m (last_n n l) = last_n m l.
Proof.
  intros H. unfold last_n. rewrite length_skipn, skipn_skipn.
  f_equal. lia.
Qed.

Lemma last_n_snoc {A} (m : nat) (l : list A) (x : A) :
  last_n (S m) (l ++ [x]) = last_n m l ++ [x].
Proof.
  unfold last_n. rewrite length_app, skipn_app. simpl List.length.
  replace (List.length l + 1 - S m) with (List.length l - m) by lia.
  replace (List.length l - m - List.length l) with 0 by lia.
  reflexivity.
Qed.

Section Conversation.

Variable lower : str -> str.
Variable eval : str -> eval_result.

(** *** Blank messages *)

Lemma route_empty_iff (message : str) :
  route_of lower message = Empty <-> forallb isspace message = true.
Proof.
  rewrite <- strip_blank_iff. unfold route_of.
  destruct message as [|c m].
  - simpl. split; reflexivity.
  - simpl truthy. simpl negb. simpl orb.
    destruct (strip (c :: m)) as [|x t]; simpl.
    + split; reflexivity.
    + destruct (contains _ _ || contains _ _);
        [split; discriminate|].
      destruct (contains _ _); [split; discriminate|].
      destruct (contains _ _ || contains _ _); split; discriminate.
Qed.

(** A message made of whitespace only, the empty message included, is
    answered with the fixed prompt, in any environment: the store is
    not touched, and the instance and the database stay as they are.
    No other message takes that branch. *)
Theorem blank_message_is_not_processed (self : SimpleChatbot) (db : database)
    (env : environment) (message : str) :
  (forallb isspace message = true ->
   get_response lower eval self db env message = (say_something, self, db))
  /\ (forallb isspace message = false ->
      route_of lower message <> Empty).
Proof.
  split.
  - intros H. apply route_empty_iff in H. unfold get_response.
    now rewrite (SessionProperties.get_response_empty lower eval self db env message H).
  - intros H E. apply route_empty_iff in E. congruence.
Qed.

(** *** The log *)

Lemma step_log (st : session) (c : call) :
  conversations (snd (step lower eval st c))
  = conversations (snd st)
    ++ (if logged lower c
        then [ {| user_input := snd c;
                  bot_response := reply lower eval st c;
                  confidence :=
                    snd (find_best_response lower eval (fst st) (fst c) (snd c)) |} ]
        else [])
  /\ patterns_table (snd (step lower eval st c)) = patterns_table (snd st)
  /\ patterns (fst (step lower eval st c)) = patterns (fst st).
Proof.
  unfold step, reply, logged, get_response.
  destruct (route_of lower (snd c)) eqn:R.
  - rewrite (SessionProperties.get_response_empty lower eval (fst st) (snd st) (fst c) (snd c) R).
    simpl. now rewrite app_nil_r.
  - rewrite (SessionProperties.get_response_history lower eval (fst st) (snd st) (fst c) (snd c) R).
    simpl. now rewrite app_nil_r.
  - rewrite (SessionProperties.get_response_clear lower eval (fst st) (snd st) (fst c) (snd c) R).
    simpl. now rewrite app_nil_r.
  - rewrite (SessionProperties.get_response_stats lower eval (fst st) (snd st) (fst c) (snd c) R).
    destruct (get_conversation_stats (snd st) (fst c)); simpl;
      now rewrite app_nil_r.
  - rewrite (SessionProperties.get_response_chat_try lower eval (fst st) (snd st) (fst c) (snd c) R).
    unfold learn_from_conversation.
    destruct (storage_error (fst c)); simpl; [now rewrite app_nil_r|].
    repeat split.
Qed.

(** Table [conversations] is append-only over a whole session: after any
    sequence of calls it is what it was, followed by one row for each
    call that reached the matcher while the store worked, in the order
    of the calls and with the message of the call.  No call changes
    table [patterns] or the patterns that the instance has loaded. *)
Theorem log_is_append_only (st : session) (calls : list call) :
  exists rows : list exchange,
    conversations (snd (run lower eval st calls))
    = conversations (snd st) ++ rows
    /\ map user_input rows = map snd (filter (logged lower) calls)
    /\ patterns_table (snd (run lower eval st calls)) = patterns_table (snd st)
    /\ patterns (fst (run lower eval st calls)) = patterns (fst st).
Proof.
  revert st. induction calls as [|c calls IH]; intros st.
  - exists []. simpl. now rewrite app_nil_r.
  - destruct (IH (step lower eval st c)) as (rows & E & Hm & Ht & Hp).
    destruct (step_log st c) as (E1 & Ht1 & Hp1).
    change (run lower eval st (c :: calls))
      with (run lower eval (step lower eval st c) calls).
    rewrite E, E1, Ht, Ht1, Hp, Hp1, <- app_assoc.
    eexists. split; [reflexivity|]. split; [|split; reflexivity].
    rewrite map_app, Hm. simpl filter.
    destruct (logged lower c); reflexivity.
Qed.

(** *** A chat and then a request for the history *)

(** After a call that was logged, a request for the history shows that
    exchange last, after the two exchanges before it, if any; it never
    says that nothing was said yet. *)
Theorem chat_then_history (st : session) (c : call)
    (env' : environment) (message' : str) :
  chats lower c ->
  route_of lower message' = History ->
  fst (fst (get_response lower eval
              (fst (step lower eval st c)) (snd (step lower eval st c))
              env' message'))
  = render_history
      (last_n 2 (conversation_history (fst st))
       ++ [(snd c, reply lower eval st c)]).
Proof.
  intros Hc Hr. unfold get_response.
  rewrite (SessionProperties.get_response_history lower eval
             (fst (step lower eval st c)) (snd (step lower eval st c))
             env' message' Hr).
  rewrite (SessionProperties.step_history_chat eval st Hc).
  simpl fst.
  destruct (Nat.eqb _ 0) eqn:E.
  - apply Nat.eqb_eq in E. rewrite SessionProperties.last_n_length in E.
    rewrite length_app in E. simpl List.length in E. lia.
  - rewrite (@last_n_last_n _ 3 20) by lia.
    now rewrite (@last_n_snoc _ 2).
Qed.

(** *** The callers *)

(** [chat_cli.py]: a turn of the loop either leaves, or skips the line,
    both without touching the chatbot, or answers with the reply of
    [get_response] on the stripped line.  The chatbot never receives a
    blank message from the loop, so that its own prompt for blank
    messages cannot come out of it. *)
Theorem cli_never_sends_blank (chatbot : SimpleChatbot) (db : database)
    (env : environment) (line : str) :
  match cli_turn lower eval chatbot db env line with
  | (Answer response, chatbot', db') =>
      get_response lower eval chatbot db env (strip line)
      = (response, chatbot', db')
      /\ forallb isspace (strip line) = false
      /\ route_of lower (strip line) <> Empty
  | (_, chatbot', db') => chatbot' = chatbot /\ db' = db
  end.
Proof.
  unfold cli_turn.
  destruct (existsb _ exit_words); [now split|].
  destruct (strip line) as [|c t] eqn:E; [now split|].
  simpl negb. cbv iota.
  destruct (get_response lower eval chatbot db env (c :: t))
    as [[response chatbot'] db'].
  assert (Hb : forallb isspace (c :: t) = false).
  { apply not_true_is_false. intros H.
    apply strip_blank_iff in H. rewrite <- E, strip_idempotent, E in H.
    discriminate H. }
  repeat split; [exact Hb|].
  intros R. apply route_empty_iff in R. congruence.
Qed.

(** [chat_fastapi.py]: the endpoint never answers with status 400.  The
    [HTTPException] that its [try] block raises for a blank message is
    caught by the handler of the same block and comes out with status
    500; every other message gets the reply of [get_response]. *)
Theorem endpoint_never_answers_400 (exception_str : http_exception -> str)
    (chatbot : SimpleChatbot) (db : database) (env : environment)
    (message : str) :
  (forallb isspace message = true ->
   chat_endpoint exception_str lower eval chatbot db env message
   = (Raises {| status_code := 500;
                detail := exception_str
                            {| status_code := 400;
                               detail := u "Empty message" |} |},
      chatbot, db))
  /\ (forallb isspace message = false ->
      exists response chatbot' db',
        get_response lower eval chatbot db env message
        = (response, chatbot', db')
        /\ chat_endpoint exception_str lower eval chatbot db env message
           = (Responds {| response_text := response; status := u "success" |},
              chatbot', db'))
  /\ (forall e chatbot' db',
        chat_endpoint exception_str lower eval chatbot db env message
        = (Raises e, chatbot', db') ->
        status_code e = 500).
Proof.
  unfold chat_endpoint, chat_endpoint_try.
  destruct (strip message) as [|c t] eqn:E; simpl truthy; simpl negb; cbv iota.
  - apply strip_blank_iff in E. split; [reflexivity|].
    split; [congruence|].
    intros e c' d' H. now inversion H.
  - assert (Hb : forallb isspace message = false).
    { apply not_true_is_false. intros H. apply strip_blank_iff in H.
      congruence. }
    destruct (get_response lower eval chatbot db env message)
      as [[response chatbot'] db'].
    split; [congruence|]. split; [|discriminate].
    intros _. now exists response, chatbot', db'.
Qed.

(** The history endpoint returns the last ten exchanges of the session,
    oldest first, when every call was logged. *)
Theorem history_endpoint_last_ten (db : database) (calls : list call) :
  Forall (chats lower) calls ->
  get_history (fst (run lower eval (init db) calls))
  = last_n 10 (transcript lower eval (init db) calls).
Proof.
  intros H. unfold get_history.
  rewrite (@SessionProperties.run_history_fifo lower eval calls (init db));
    [|simpl; lia | exact H].
  simpl app. apply last_n_last_n. lia.
Qed.

End Conversation.

Lemma chat_then_history_witness :
  chats ascii_lower (fair_weather, u "hello")
  /\ route_of ascii_lower (u "Show chat history") = History
  /\ fst (fst (get_response ascii_lower reference_eval
                 (fst (step ascii_lower reference_eval (init new_database)
                         (fair_weather, u "hello")))
                 (snd (step ascii_lower reference_eval (init new_database)
                         (fair_weather, u "hello")))
                 fair_weather (u "Show chat history")))
     = render_history [(u "hello", u "Hello! How can I help you today?")].
Proof.
  split; [split; reflexivity|]. split; [reflexivity|].
  exact (@chat_then_history ascii_lower reference_eval (init new_database)
           (fair_weather, u "hello") fair_weather (u "Show chat history")
           (conj eq_refl eq_refl) eq_refl).
Defined.

Lemma cli_never_sends_blank_witness :
  fst (fst (cli_turn ascii_lower reference_eval (fst (init new_database))
              (snd (init new_database)) fair_weather (u "   ")))
  = Again
  /\ fst (fst (cli_turn ascii_lower reference_eval (fst (init new_database))
                 (snd (init new_database)) fair_weather (u "  BYE ")))
     = Leave
  /\ fst (fst (cli_turn ascii_lower reference_eval (fst (init new_database))
                 (snd (init new_database)) fair_weather (u "  hello  ")))
     = Answer (u "Hello! How can I help you today?")
  /\ route_of ascii_lower (strip (u "  hello  ")) <> Empty.
Proof.
  split; [vm_compute; reflexivity|].
  split; [vm_compute; reflexivity|].
  split; [vm_compute; reflexivity|].
  pose proof (@cli_never_sends_blank ascii_lower reference_eval
                (fst (init new_database)) (snd (init new_database))
                fair_weather (u "  hello  ")) as H.
  destruct (cli_turn ascii_lower reference_eval (fst (init new_database))
              (snd (init new_database)) fair_weather (u "  hello  "))
    as [[[| |response] chatbot'] db'] eqn:E.
  - apply (f_equal (fun x => fst (fst x))) in E.
    vm_compute in E. discriminate E.
  - apply (f_equal (fun x => fst (fst x))) in E.
    vm_compute in E. discriminate E.
  - now destruct H as (_ & _ & H).
Defined.

Lemma endpoint_never_answers_400_witness :
  forallb isspace (u "  ") = true
  /\ fst (fst (chat_endpoint (fun e => detail e) ascii_lower reference_eval
                 (fst (init new_database)) (snd (init new_database))
                 fair_weather (u "  ")))
     = Raises {| status_code := 500; detail := u "Empty message" |}.
Proof.
  split; [reflexivity|].
  rewrite (proj1 (@endpoint_never_answers_400 ascii_lower reference_eval
                    (fun e => detail e)
                    (fst (init new_database)) (snd (init new_database))
                    fair_weather (u "  ")) eq_refl).
  reflexivity.
Defined.

Lemma history_endpoint_last_ten_witness :
  Forall (chats ascii_lower)
         (map (fun n => (fair_weather, u "note " ++ str_of_nat n)) (seq 1 12))
  /\ map fst
       (get_history
          (fst (run ascii_lower reference_eval (init new_database)
                  (map (fun n => (fair_weather, u "note " ++ str_of_nat n))
                       (seq 1 12)))))
     = map (fun n => u "note " ++ str_of_nat n) (seq 3 10).
Proof.
  assert (H : Forall (chats ascii_lower)
                (map (fun n => (fair_weather, u "note " ++ str_of_nat n))
                     (seq 1 12))).
  { repeat constructor. }
  split; [exact H|].
  rewrite (@history_endpoint_last_ten ascii_lower reference_eval
             new_database _ H).
  vm_compute. reflexivity.
Defined.

Lemma blank_message_is_not_processed_witness :
  forallb isspace (u "   ") = true
  /\ get_response ascii_lower reference_eval (fst (init new_database))
       (snd (init new_database)) locked (u "   ")
     = (say_something, fst (init new_database), snd (init new_database)).
Proof.
  split; [reflexivity|].
  apply (proj1 (@blank_message_is_not_processed ascii_lower reference_eval
                  (fst (init new_database)) (snd (init new_database))
                  locked (u "   "))).
  reflexivity.
Defined.

End ConversationProperties.

(* ================================================================= *)
(** ** More on the store: seeding, loading and the statistics *)

Module StoreProperties.
Import PyStr PyNum Chatbot Notions.
Local Open Scope string_scope.
Local Open Scope list_scope.

(** *** Seeding *)

Lemma init_database_seeded (db : database) :
  is_database_empty (init_database db) = false.
Proof.
  unfold init_database.
  destruct (is_database_empty db) eqn:E; [|exact E].
  unfold is_database_empty, load_initial_patterns. simpl.
  rewrite length_app. simpl.
  apply Nat.eqb_neq. lia.
Qed.

(** Seeding happens once: creating a chatbot on a new store writes the
    13 seed rows; creating another one on the store that the first one
    left changes nothing and loads the same patterns.  A store that has
    any pattern is never seeded, and table [conversations] is not
    touched. *)
Theorem seeding_is_idempotent (db : database) :
  init (snd (init db)) = init db
  /\ conversations (snd (init db)) = conversations db
  /\ (patterns_table db = [] ->
      patterns_table (snd (init db)) = initial_patterns
      /\ List.length (patterns (fst (init db))) = 13)
  /\ (patterns_table db <> [] -> snd (init db) = db).
Proof.
  split; [|split; [|split]].
  - unfold init. simpl snd.
    assert (E : init_database (init_database db) = init_database db).
    { unfold init_database at 1. now rewrite init_database_seeded. }
    now rewrite E.
  - unfold init, init_database. simpl.
    now destruct (is_database_empty db).
  - intros H. unfold init, init_database, is_database_empty,
      load_responses, load_initial_patterns.
    rewrite H. simpl. split; reflexivity.
  - intros H. unfold init, init_database, is_database_empty. simpl.
    destruct (patterns_table db); [now elim H | reflexivity].
Qed.

(** [load_responses] loads every row of table [patterns] once: the
    loaded patterns are the compiled rows, rearranged. *)
Theorem load_responses_keeps_every_row (db : database) :
  Permutation (map compile_row (patterns_table db)) (load_responses db)
  /\ List.length (load_responses db) = List.length (patterns_table db).
Proof.
  unfold load_responses. split.
  - apply Permutation_map, MatcherProperties.order_by_weight_desc_perm.
  - rewrite length_map. symmetry. apply Permutation_length.
    apply MatcherProperties.order_by_weight_desc_perm.
Qed.

(** *** Counting distinct inputs *)

Lemma distinct_values_snoc (values seen : list str) (x : str) :
  distinct_values seen (values ++ [x])
  = if existsb (str_eqb x) (distinct_values seen values)
    then distinct_values seen values
    else distinct_values seen values ++ [x].
Proof.
  revert seen. induction values as [|v values IH]; intros seen; simpl.
  - now destruct (existsb (str_eqb x) seen).
  - destruct (existsb (str_eqb v) seen); apply IH.
Qed.

Lemma existsb_In (x : str) (l : list str) :
  existsb (str_eqb x) l = true <-> In x l.
Proof.
  rewrite existsb_exists. split.
  - intros (y & Hin & E). apply MatcherProperties.str_eqb_eq in E. now subst.
  - intros H. exists x. split; [exact H|].
    now apply MatcherProperties.str_eqb_eq.
Qed.

Lemma existsb_distinct (x : str) (values : list str) :
  existsb (str_eqb x) (distinct_values [] values)
  = existsb (str_eqb x) values.
Proof.
  destruct (@SessionProperties.distinct_values_spec values [] (NoDup_nil _))
    as [_ H].
  destruct (existsb (str_eqb x) values) eqn:E.
  - apply existsb_In. apply H. right. now apply existsb_In.
  - apply not_true_is_false. intros F. apply existsb_In, H in F.
    destruct F as [[]|F]. apply existsb_In in F. congruence.
Qed.


(** *** Rounding *)




(** *** The statistics *)




Section AfterChat.

Variable lower : str -> str.
Variable eval : str -> eval_result.

(** After a message was answered by the matcher and logged, the
    statistics count one conversation more; they count one unique input
    more if the very same message was not in the log yet, and as many as
    before if it was. *)
Theorem stats_after_chat (self : SimpleChatbot) (db : database)
    (env env' : environment) (message : str) :
  route_of lower message = Chat ->
  storage_error env = None ->
  storage_error env' = None ->
  exists s s' : stats,
    get_conversation_stats db env' = Returned s
    /\ get_conversation_stats
         (snd (get_response lower eval self db env message)) env'
       = Returned s'
    /\ total_conversations s' = S (total_conversations s)
    /\ unique_inputs s'
       = if existsb (str_eqb message) (map user_input (conversations db))
         then unique_inputs s
         else S (unique_inputs s).
Proof.
  intros R Hs Hs'. unfold get_response.
  rewrite (SessionProperties.get_response_chat_try lower eval self db env message R).
  unfold learn_from_conversation. rewrite Hs. simpl bind. simpl snd.
  unfold get_conversation_stats. rewrite Hs'.
  eexists _, _. split; [reflexivity|]. split; [reflexivity|].
  simpl. split.
  - rewrite length_app. simpl. lia.
  - unfold sql_count_distinct. rewrite map_app. simpl map.
    rewrite distinct_values_snoc, existsb_distinct.
    destruct (existsb (str_eqb message) (map user_input (conversations db)));
      [reflexivity|].
    rewrite length_app. simpl. lia.
Qed.

End AfterChat.

Lemma stats_after_chat_witness :
  route_of ascii_lower (u "hello") = Chat
  /\ storage_error fair_weather = None
  /\ exists s' : stats,
       get_conversation_stats
         (snd (get_response ascii_lower reference_eval
                 (fst (init new_database))
                 {| conversations :=
                      [ {| user_input := u "hello"; bot_response := u "a";
                           confidence := 1 |} ];
                    patterns_table := initial_patterns |}
                 fair_weather (u "hello")))
         fair_weather
       = Returned s'
       /\ total_conversations s' = 2
       /\ unique_inputs s' = 1.
Proof.
  split; [reflexivity|]. split; [reflexivity|].
  destruct (@stats_after_chat ascii_lower reference_eval
              (fst (init new_database))
              {| conversations :=
                   [ {| user_input := u "hello"; bot_response := u "a";
                        confidence := 1 |} ];
                 patterns_table := initial_patterns |}
              fair_weather fair_weather (u "hello") eq_refl eq_refl eq_refl)
    as (s & s' & E & E' & Ht & Hu).
  exists s'. split; [exact E'|].
  vm_compute in E. inversion E as [Es]. subst s.
  split; [exact Ht | exact Hu].
Defined.

Lemma seeding_is_idempotent_witness :
  patterns_table new_database = []
  /\ patterns_table (snd (init new_database)) = initial_patterns
  /\ List.length (patterns (fst (init new_database))) = 13.
Proof.
  split; [reflexivity|].
  apply (proj1 (proj2 (proj2 (seeding_is_idempotent new_database)))).
  reflexivity.
Defined.

End StoreProperties.
